(** * puresnmp: the X.690 codec of [snmp/types.py], embedded in Rocq

    Python integers are unbounded, so they are modelled by [Z] and the
    operators [&], [|], [^] and [>>] by [Z.land], [Z.lor], [Z.lxor] and
    [Z.shiftr].  A [bytes] object is a list of integers; the constructor
    [bytes([...])] is the only place where the range 0..255 is enforced,
    exactly as in Python.  Exceptions are values of [exn]; a computation
    returns an [outcome]. *)

From Stdlib Require Import ZArith String Ascii Bool Lia List.
From Stdlib Require Import HexadecimalString HexadecimalZ.
From Stdlib Require DecimalString DecimalZ.
Import ListNotations.

#[local] Set Warnings "-register-all".

Local Open Scope string_scope.
Local Open Scope list_scope.
Local Open Scope Z_scope.

(** ** Exceptions and outcomes *)

Inductive exn : Type :=
| NotImplementedError (msg : string)
| ValueError (msg : string)
| SnmpError (msg : string)
| IndexError
| AttributeError
| StopIteration
| UnicodeDecodeError.

(** [Fuel] is not a Python exception: it marks a loop or a recursion of
    the model that was cut before the Python code would have stopped. *)
Inductive outcome (A : Type) : Type :=
| Ok (a : A)
| Raise (e : exn)
| Fuel.

Arguments Ok {A} a.
Arguments Raise {A} e.
Arguments Fuel {A}.

Definition bind {A B : Type} (m : outcome A) (k : A -> outcome B) : outcome B :=
  match m with
  | Ok a => k a
  | Raise e => Raise e
  | Fuel => Fuel
  end.

Notation "x <- m ;; k" := (bind m (fun x => k))
  (at level 61, m at next level, right associativity).
Notation "' p <- m ;; k" := (bind m (fun x => match x with p => k end))
  (at level 61, p pattern, m at next level, right associativity).

Definition returns {A : Type} (m : outcome A) : bool :=
  match m with Ok _ => true | _ => false end.

Definition raises {A : Type} (m : outcome A) : bool :=
  match m with Raise _ => true | _ => false end.

(** ** Bytes *)

Definition bytes : Type := list Z.

Definition is_byte (b : Z) : bool := (0 <=? b) && (b <? 256).

Definition is_bytes (data : bytes) : Prop := Forall (fun b => 0 <= b < 256) data.

(** [bytes(iterable_of_ints)]: every element must be in [range(0, 256)]. *)
Definition bytes_of (l : list Z) : outcome bytes :=
  if forallb is_byte l then Ok l
  else Raise (ValueError "bytes must be in range(0, 256)").

(** [data[0]] on a bytes object. *)
Definition index0 (data : bytes) : outcome Z :=
  match data with
  | [] => Raise IndexError
  | b :: _ => Ok b
  end.

(** [data[lo:]] and [data[:hi]] never fail; a bound past the end is clipped. *)
Definition slice_from (lo : Z) (data : bytes) : bytes := skipn (Z.to_nat lo) data.
Definition slice_to (hi : Z) (data : bytes) : bytes := firstn (Z.to_nat hi) data.
Definition slice (lo hi : Z) (data : bytes) : bytes :=
  firstn (Z.to_nat hi - Z.to_nat lo) (skipn (Z.to_nat lo) data).

Definition len {A : Type} (l : list A) : Z := Z.of_nat (length l).

(** [int.from_bytes(octets, 'big')]: unsigned, most significant octet first. *)
Definition int_from_bytes_big (octets : bytes) : Z :=
  fold_left (fun acc b => acc * 256 + b) octets 0.

(** ['%02x' % n] *)
Definition hex02 (n : Z) : string :=
  let s := NilZero.string_of_int (Z.to_hex_int n) in
  if (String.length s <? 2)%nat then ("0" ++ s)%string else s.

(** ** The length field *)

Definition encode_length (value : Z) : outcome Z :=
  if negb (Z.land value 128 =? 0) then
    Raise (NotImplementedError "Length values above 127 are not yet implemented!")
  else Ok value.

Definition consume_length (data : bytes) : outcome (Z * bytes) :=
  d0 <- index0 data ;;
  if d0 =? 255 then
    Raise (NotImplementedError "This is a reserved case in X690")
  else if Z.land d0 128 =? 0 then
    Ok (int_from_bytes_big [d0], slice_from 1 data)
  else if Z.lxor d0 128 =? 0 then
    Raise (NotImplementedError "Indefinite lenghts are not yet implemented!")
  else
    let num_octets := int_from_bytes_big [Z.lxor d0 128] in
    let value_octets := slice 1 (1 + num_octets) data in
    Ok (int_from_bytes_big value_octets, slice_from (num_octets + 1) data).

(** ** Integer *)

Module Integer.

Definition HEADER : Z := 2.

Definition from_bytes (data : bytes) : outcome Z :=
  d0 <- index0 data ;;
  if negb (d0 =? HEADER) then
    Raise (ValueError ("Invalid type header! Expected 0x02, got 0x" ++ hex02 d0)%string)
  else
    '(_, value) <- consume_length (slice_from 1 data) ;;
    Ok (int_from_bytes_big value).

(** The loop [while remainder: ...] of [__bytes__]; [octets] is kept in
    the order of the appends. *)
Fixpoint octets_loop (fuel : nat) (remainder : Z) (octets : list Z)
  : outcome (list Z) :=
  if remainder =? 0 then Ok octets
  else match fuel with
       | O => Fuel
       | S fuel' =>
           let octet := Z.land remainder 255 in
           let remainder := Z.shiftr remainder 8 in
           octets_loop fuel' remainder (octets ++ [octet])
       end.

(** The content octets computed by [__bytes__], before the header. *)
Definition octets (fuel : nat) (value : Z) : outcome (list Z) :=
  if value =? 0 then Ok [0]
  else
    octets <- octets_loop fuel value [] ;;
    Ok (rev octets).

Definition to_bytes (fuel : nat) (value : Z) : outcome bytes :=
  octets <- octets fuel value ;;
  bytes_of ([HEADER; len octets] ++ octets).

End Integer.

(** ** Object identifiers *)

(** [enumerate(l)] *)
Definition enumerate {A : Type} (l : list A) : list (Z * A) :=
  combine (map Z.of_nat (seq 0 (length l))) l.

Definition list_eqb (l1 l2 : list Z) : bool :=
  if list_eq_dec Z.eq_dec l1 l2 then true else false.

Module Oid.

Definition HEADER : Z := 6.

(** The attributes set by [__init__]. *)
Record t : Type := Make {
  identifiers : list Z;
  collapsed_identifiers : list Z;
  length : Z
}.

(** The loop [while current_char > 127] of [decode_large_value];
    [next(stream)] takes the head of the shared iterator and raises
    [StopIteration] when it is exhausted.  The rest of the iterator is
    returned, since the caller goes on reading from it. *)
Fixpoint decode_buffer (current_char : Z) (stream : list Z) (buffer : list Z)
  : outcome (list Z * Z * list Z) :=
  if current_char >? 127 then
    match stream with
    | [] => Raise StopIteration
    | next :: stream' =>
        decode_buffer next stream' (buffer ++ [Z.lxor current_char 128])
    end
  else Ok (buffer, current_char, stream).

Definition decode_large_value (current_char : Z) (stream : list Z)
  : outcome (Z * list Z) :=
  '(buffer, current_char, stream) <- decode_buffer current_char stream [] ;;
  let total :=
    fold_left (fun total '(i, digit) => total + digit * 128 ^ (i + 1))
              (enumerate (rev buffer)) current_char in
  Ok (total, stream).

(** The loop [while value: ...] of [encode_large_value]. *)
Fixpoint encode_loop (fuel : nat) (value : Z) (output : list Z)
  : outcome (list Z) :=
  if value =? 0 then Ok output
  else match fuel with
       | O => Fuel
       | S fuel' =>
           encode_loop fuel' (Z.shiftr value 7)
                       (output ++ [Z.lor (Z.land value 127) 128])
       end.

Definition encode_large_value_fuel (fuel : nat) (value : Z) : outcome (list Z) :=
  if value <=? 127 then Ok [value]
  else
    output <- encode_loop fuel (Z.shiftr value 7) [Z.land value 127] ;;
    Ok (rev output).

(** One turn of the loop per 7 bits: [Z.log2 value] turns are enough
    (see [encode_large_value_fuel_enough]). *)
Definition encode_large_value (value : Z) : outcome (list Z) :=
  encode_large_value_fuel (Z.to_nat (Z.log2 value)) value.

(** [for subidentifier in rest: collapsed.extend(encode_large_value(subidentifier))] *)
Fixpoint extend_encoded (rest : list Z) (collapsed : list Z) : outcome (list Z) :=
  match rest with
  | [] => Ok collapsed
  | subidentifier :: rest' =>
      digits <- encode_large_value subidentifier ;;
      extend_encoded rest' (collapsed ++ digits)
  end.

(** The constructor [Oid], called with integers as its arguments.  The list
    [exploded_high_values] that [__init__] also builds is never read and
    is left out. *)
Definition init (identifiers : list Z) : outcome t :=
  match identifiers with
  | first :: second :: rest =>
      let first_output := 40 * first + second in
      collapsed <- extend_encoded rest [first_output] ;;
      length <- encode_length (len collapsed) ;;
      Ok (Make identifiers collapsed length)
  | _ => Raise IndexError
  end.

(** [__bytes__] *)
Definition to_bytes (o : t) : outcome bytes :=
  bytes_of ([HEADER; length o] ++ collapsed_identifiers o).

(** [__eq__] between two [Oid] objects. *)
Definition eqb (o1 o2 : t) : bool :=
  list_eqb (collapsed_identifiers o1) (collapsed_identifiers o2).

(** [for char in remaining: ...]; [decode_large_value] reads from the
    same iterator, so the loop goes on with what it left.  Every turn
    takes at least one element: [length remaining] turns are enough. *)
Fixpoint from_bytes_loop (fuel : nat) (remaining : list Z) (output : list Z)
  : outcome (list Z) :=
  match remaining with
  | [] => Ok output
  | char :: remaining =>
      match fuel with
      | O => Fuel
      | S fuel' =>
          if char >? 127 then
            '(collapsed_value, remaining) <- decode_large_value char remaining ;;
            from_bytes_loop fuel' remaining (output ++ [collapsed_value])
          else from_bytes_loop fuel' remaining (output ++ [char])
      end
  end.

Definition from_bytes (data : bytes) : outcome t :=
  d0 <- index0 data ;;
  if negb (d0 =? HEADER) then
    Raise (ValueError ("Invalid type header! Expected 0x02, got 0x" ++ hex02 d0)%string)
  else
    '(_, identifiers) <- consume_length (slice_from 1 data) ;;
    i0 <- index0 identifiers ;;
    let first := i0 / 40 in
    let second := i0 mod 40 in
    let remaining := slice_from 1 identifiers in
    output <- from_bytes_loop (List.length remaining) remaining [first; second] ;;
    init output.

(** [Oid.from_bytes(bytes(o))] for the [o] built from [identifiers]. *)
Definition roundtrip (identifiers : list Z) : outcome t :=
  o <- init identifiers ;;
  data <- to_bytes o ;;
  from_bytes data.

End Oid.

(** ** Decoded values and the TLV decoder *)

(** The objects that [consume] can build.  [String] keeps the [length]
    attribute computed by its constructor; the request id of a
    [GetResponse] is whatever [consume] returned, [None] included. *)
Inductive obj : Type :=
| VInteger (value : Z)
| VString (value : string) (length : Z)
| VList (items : list obj)
| VOid (o : Oid.t)
| VGetResponse (request_id : option obj) (value : obj).

(** [data.decode('ascii')] *)
Definition decode_ascii (data : bytes) : outcome string :=
  if forallb (fun b => b <? 128) data then
    Ok (string_of_list_ascii (map (fun b => ascii_of_N (Z.to_N b)) data))
  else Raise UnicodeDecodeError.

(** [String(value)] *)
Definition String_init (value : string) : outcome obj :=
  length <- encode_length (Z.of_nat (String.length value)) ;;
  Ok (VString value length).

Definition String_from_bytes (data : bytes) : outcome obj :=
  d0 <- index0 data ;;
  if negb (d0 =? 4) then
    Raise (ValueError ("Invalid type header! Expected 0x04, got 0x" ++ hex02 d0)%string)
  else
    '(_, data) <- consume_length (slice_from 1 data) ;;
    text <- decode_ascii data ;;
    String_init text.

(** [error_code.value], then its truth value: an [Integer] holds an int,
    a [String] a str, a [GetResponse] an object without [__bool__] or
    [__len__]; the other objects and [None] have no attribute [value]. *)
Definition value_attr_truth (v : option obj) : outcome bool :=
  match v with
  | Some (VInteger n) => Ok (negb (n =? 0))
  | Some (VString s _) => Ok (negb (String.eqb s ""))
  | Some (VGetResponse _ _) => Ok true
  | Some (VList _) | Some (VOid _) | None => Raise AttributeError
  end.

(** [v.items] *)
Definition items_attr (v : option obj) : outcome (list obj) :=
  match v with
  | Some (VList items) => Ok items
  | _ => Raise AttributeError
  end.

(** [items[i]] on a tuple, for [i >= 0]. *)
Definition index {A : Type} (items : list A) (i : nat) : outcome A :=
  match nth_error items i with
  | Some a => Ok a
  | None => Raise IndexError
  end.

Section Decoders.

(** The recursive calls to [consume]. *)
Variable consume_rec : bytes -> outcome (option obj * bytes).

(** [while content: ...] of [List.from_bytes]. *)
Fixpoint List_loop (fuel : nat) (content : bytes) (output : list obj)
  : outcome (list obj) :=
  match content with
  | [] => Ok output
  | _ :: _ =>
      match fuel with
      | O => Fuel
      | S fuel' =>
          '(value, content) <- consume_rec content ;;
          match value with
          | None => Ok output
          | Some value => List_loop fuel' content (output ++ [value])
          end
      end
  end.

Definition List_from_bytes_rec (data : bytes) : outcome obj :=
  d0 <- index0 data ;;
  if negb (d0 =? 48) then
    Raise (ValueError ("Invalid type header! Expected 0x30, got 0x" ++ hex02 d0)%string)
  else
    '(_, content) <- consume_length (slice_from 1 data) ;;
    output <- List_loop (List.length content) content [] ;;
    Ok (VList output).

Definition GetResponse_from_bytes_rec (data : bytes) : outcome obj :=
  d0 <- index0 data ;;
  if negb (d0 =? 162) then
    Raise (ValueError ("Invalid type header! Expected 0xa2, got 0x" ++ hex02 d0)%string)
  else
    '(expected_length, data) <- consume_length (slice_from 1 data) ;;
    if negb (len data =? expected_length) then
      Raise (ValueError
               ("Corrupt packet: Unexpected length for GET response! Expected 0x"
                ++ hex02 expected_length ++ " but got 0x" ++ hex02 (len data))%string)
    else
      '(request_id, data) <- consume_rec data ;;
      '(error_code, data) <- consume_rec data ;;
      '(error_index, data) <- consume_rec data ;;
      failed <- value_attr_truth error_code ;;
      if (failed : bool) then Raise (SnmpError "Error packet received!")
      else
        '(values, data) <- consume_rec data ;;
        items <- items_attr values ;;
        varbind <- index items 0 ;;
        pair <- items_attr (Some varbind) ;;
        value <- index pair 1 ;;
        Ok (VGetResponse request_id value).

(** The body of [consume]. *)
Definition consume_body (data : bytes) : outcome (option obj * bytes) :=
  type <- index0 data ;;
  '(length, remainder) <- consume_length (slice_from 1 data) ;;
  let chunk := slice_to (length + 2) data in
  value <-
    (if type =? 2 then
       n <- Integer.from_bytes chunk ;; Ok (Some (VInteger n))
     else if type =? 4 then
       v <- String_from_bytes chunk ;; Ok (Some v)
     else if type =? 48 then
       v <- List_from_bytes_rec chunk ;; Ok (Some v)
     else if type =? 5 then
       Ok None
     else if type =? 162 then
       v <- GetResponse_from_bytes_rec chunk ;; Ok (Some v)
     else if type =? 6 then
       o <- Oid.from_bytes chunk ;; Ok (Some (VOid o))
     else
       Raise (ValueError ("Unknown type header: 0x" ++ hex02 type)%string)) ;;
  Ok (value, slice_from length remainder).

End Decoders.

(** [consume] calls itself through [List.from_bytes] and
    [GetResponse.from_bytes], always on a strictly shorter buffer; the
    recursion is cut at depth [fuel]. *)
Fixpoint consume_fuel (fuel : nat) (data : bytes) : outcome (option obj * bytes) :=
  match fuel with
  | O => Fuel
  | S fuel' => consume_body (consume_fuel fuel') data
  end.

(** [length data] levels are never exhausted (see [consume_unfold] and
    [consume_total]). *)
Definition consume (data : bytes) : outcome (option obj * bytes) :=
  consume_fuel (S (List.length data)) data.

Definition List_from_bytes : bytes -> outcome obj := List_from_bytes_rec consume.

Definition GetResponse_from_bytes : bytes -> outcome obj :=
  GetResponse_from_bytes_rec consume.

(** ** [GetResponse.decode] of [puresnmp/types.py]

    The later decoder takes the payload of the PDU and reads its fields
    with [pop_tlv], which lives in [x690/types.py]; it is a parameter here
    and its objects are taken to be those of [consume]. *)

Module Puresnmp.

Record GetResponse : Type := Make {
  request_id : option obj;
  oid : obj;
  value : option obj
}.

Section Decode.

Variable pop_tlv : bytes -> outcome (option obj * bytes).

Definition decode (data : bytes) : outcome GetResponse :=
  '(request_id, data) <- pop_tlv data ;;
  '(error_code, data) <- pop_tlv data ;;
  '(error_index, data) <- pop_tlv data ;;
  failed <- value_attr_truth error_code ;;
  if (failed : bool) then Raise (SnmpError "Error packet received!")
  else
    '(values, data) <- pop_tlv data ;;
    items <- items_attr values ;;
    varbind <- index items 0 ;;
    pair <- items_attr (Some varbind) ;;
    value <- (if len pair =? 1 then Ok None
              else v <- index pair 1 ;; Ok (Some v)) ;;
    oid <- index pair 0 ;;
    Ok (Make request_id oid value).

End Decode.

End Puresnmp.

(** ** Reference notions and test vectors *)

(** The two's-complement reading of big-endian octets, as X.690 defines
    the contents of an INTEGER ([int.from_bytes(octets, 'big', signed=True)]). *)
Definition int_from_bytes_big_signed (octets : bytes) : Z :=
  let unsigned := int_from_bytes_big octets in
  if 128 <=? hd 0 octets then unsigned - 256 ^ len octets else unsigned.

(** [octets] is a two's-complement encoding of [value]. *)
Definition twos_complement_encoding (value : Z) (octets : bytes) : Prop :=
  is_bytes octets /\ octets <> [] /\ int_from_bytes_big_signed octets = value.

Definition base128_digit (d : Z) : Prop := 0 <= d < 128.

(** The value of base-128 digits, least significant first. *)
Definition base128_le (digits : list Z) : Z :=
  fold_right (fun d acc => d + 128 * acc) 0 digits.

(** The type octets that [consume] dispatches on. *)
Definition supported_type (type : Z) : bool :=
  (type =? 2) || (type =? 4) || (type =? 48) || (type =? 5) || (type =? 162)
  || (type =? 6).

(** Two candidates for the recursive call agree on the byte buffers
    shorter than [n]. *)
Definition agree_below (n : nat) (f g : bytes -> outcome (option obj * bytes)) : Prop :=
  forall x, is_bytes x -> (length x < n)%nat -> f x = g x.

(** On the byte buffers shorter than [n], [f] is not cut short and what
    it leaves is a shorter byte buffer. *)
Definition shrinks_below (n : nat) (f : bytes -> outcome (option obj * bytes)) : Prop :=
  forall x, is_bytes x -> (length x < n)%nat ->
    f x <> Fuel /\
    forall v r, f x = Ok (v, r) -> is_bytes r /\ (length r < length x)%nat.

(** A response: request id 0, error status 0, error index 0 and the one
    varbind (1.2.3, 'hi'). *)
Definition sample_response : bytes :=
  [162; 21; 2; 1; 0; 2; 1; 0; 2; 1; 0;
   48; 10; 48; 8; 6; 2; 42; 3; 4; 2; 104; 105].

(** The same response with error status 5. *)
Definition error_response : bytes :=
  [162; 21; 2; 1; 0; 2; 1; 5; 2; 1; 0;
   48; 10; 48; 8; 6; 2; 42; 3; 4; 2; 104; 105].

(** The message (version 1, community 'public') around [error_response]. *)
Definition error_message : bytes :=
  [48; 34; 2; 1; 1; 4; 6; 112; 117; 98; 108; 105; 99] ++ error_response.

(** A response whose varbind list holds two varbinds,
    (1.2.3, 'hi') and (1.2.4, 'ho'). *)
Definition two_varbind_response : bytes :=
  [162; 31; 2; 1; 0; 2; 1; 0; 2; 1; 0;
   48; 20; 48; 8; 6; 2; 42; 3; 4; 2; 104; 105;
           48; 8; 6; 2; 42; 4; 4; 2; 104; 111].

(** A response whose varbind list is empty. *)
Definition no_varbind_response : bytes :=
  [162; 11; 2; 1; 0; 2; 1; 0; 2; 1; 0; 48; 0].

(** The response [sample_response] with the error status [status] in one
    content octet behind a long-form length (02 81 01 status). *)
Definition long_form_status_response (status : Z) : bytes :=
  [162; 22; 2; 1; 0; 2; 129; 1; status; 2; 1; 0;
   48; 10; 48; 8; 6; 2; 42; 3; 4; 2; 104; 105].

(** An INTEGER whose header announces five content octets and carries one. *)
Definition truncated_integer : bytes := [2; 5; 1].

(** The INTEGER 5 with its length, 1, in the long form. *)
Definition long_form_integer : bytes := [2; 129; 1; 5].

(** ** Null and the encoders of the other types *)

(** ['%d' % n] *)
Definition dec (n : Z) : string := DecimalString.NilZero.string_of_int (Z.to_int n).

Module Null.

Definition HEADER : Z := 5.

(** [Null()] carries nothing: the object is [tt]. *)
Definition from_bytes (data : bytes) : outcome unit :=
  d0 <- index0 data ;;
  if negb (d0 =? HEADER) then
    Raise (ValueError ("Invalid type header! Expected 0x05, got 0x" ++ hex02 d0)%string)
  else
    d1 <- index data 1 ;;
    if negb (d1 =? 0) then
      Raise (ValueError
               ("Unexpected NULL value. Lenght should be 0, it was " ++ dec d1)%string)
    else Ok tt.

(** [__bytes__] *)
Definition to_bytes : bytes := [5; 0].

End Null.

(** [value.encode('ascii')]; a character above 127 raises
    [UnicodeEncodeError], which is a [ValueError]. *)
Definition encode_ascii (value : string) : outcome bytes :=
  let codes := map (fun c => Z.of_N (N_of_ascii c)) (list_ascii_of_string value) in
  if forallb (fun b => b <? 128) codes then Ok codes
  else Raise (ValueError "'ascii' codec can't encode character: ordinal not in range(128)").

(** [String.__bytes__], from the attributes [value] and [length]. *)
Definition String_to_bytes (value : string) (length : Z) : outcome bytes :=
  header <- bytes_of [4; length] ;;
  text <- encode_ascii value ;;
  Ok (header ++ text).

(** [List.__bytes__], from the bytes of the items. *)
Definition List_to_bytes (encoded : list bytes) : outcome bytes :=
  let output := concat encoded in
  length <- encode_length (len output) ;;
  header <- bytes_of [48; length] ;;
  Ok (header ++ output).

(** [bytes(Integer(value))]: the loop of [__bytes__] takes one turn per
    octet, so [Z.log2 value + 1] turns are enough for a positive value; on
    a negative value no number of turns is (see
    [Integer_octets_negative_diverges]), and [Fuel] stands for the loop
    that does not stop. *)
Definition Integer_to_bytes (value : Z) : outcome bytes :=
  Integer.to_bytes (S (Z.to_nat (Z.log2 value))) value.

(** [bytes(o)] for the objects of [consume]; [GetResponse] has no
    [__bytes__] of its own and inherits the one of [Type]. *)
Fixpoint obj_to_bytes (o : obj) : outcome bytes :=
  match o with
  | VInteger value => Integer_to_bytes value
  | VString value length => String_to_bytes value length
  | VList items =>
      encoded <- (fix each (items : list obj) : outcome (list bytes) :=
                    match items with
                    | [] => Ok []
                    | item :: items =>
                        b <- obj_to_bytes item ;;
                        bs <- each items ;;
                        Ok (b :: bs)
                    end) items ;;
      List_to_bytes encoded
  | VOid o => Oid.to_bytes o
  | VGetResponse _ _ => Raise (NotImplementedError "Not yet implemented")
  end.

(** [[bytes(item) for item in items]] *)
Fixpoint each_to_bytes (items : list obj) : outcome (list bytes) :=
  match items with
  | [] => Ok []
  | item :: items =>
      b <- obj_to_bytes item ;;
      bs <- each_to_bytes items ;;
      Ok (b :: bs)
  end.

(** [a == b]: every [__eq__] first compares the types; [String] then
    compares [value], [Integer] [value], [Oid] the packed identifiers,
    [List] the tuples of items and [GetResponse] the request ids and the
    values. *)
Fixpoint obj_eqb (a b : obj) : bool :=
  match a, b with
  | VInteger x, VInteger y => x =? y
  | VString s _, VString t _ => String.eqb s t
  | VList xs, VList ys =>
      (fix all2 (xs ys : list obj) : bool :=
         match xs, ys with
         | [], [] => true
         | x :: xs, y :: ys => obj_eqb x y && all2 xs ys
         | _, _ => false
         end) xs ys
  | VOid o1, VOid o2 => Oid.eqb o1 o2
  | VGetResponse r1 v1, VGetResponse r2 v2 =>
      match r1, r2 with
      | None, None => true
      | Some r1, Some r2 => obj_eqb r1 r2
      | _, _ => false
      end && obj_eqb v1 v2
  | _, _ => false
  end.

(** Tuple equality, item by item. *)
Fixpoint items_eqb (xs ys : list obj) : bool :=
  match xs, ys with
  | [], [] => true
  | x :: xs, y :: ys => obj_eqb x y && items_eqb xs ys
  | _, _ => false
  end.

(** [GetRequest.__bytes__], from the attributes [request_id] and [oid];
    the constructor takes the request id from the clock. *)
Definition GetRequest_to_bytes (request_id : Z) (oid : Oid.t) : outcome bytes :=
  id <- Integer_to_bytes request_id ;;
  zero1 <- Integer_to_bytes 0 ;;
  zero2 <- Integer_to_bytes 0 ;;
  name <- Oid.to_bytes oid ;;
  varbind <- List_to_bytes [name; Null.to_bytes] ;;
  varbinds <- List_to_bytes [varbind] ;;
  let payload := concat [id; zero1; zero2; varbinds] in
  header <- bytes_of [160; len payload] ;;
  Ok (header ++ payload).

(** The objects that the constructors build from non-negative integers
    and strings, with integers of at most 127 octets. *)
Fixpoint constructed (o : obj) : Prop :=
  match o with
  | VInteger value => 0 <= value < 256 ^ 127
  | VString value length => String_init value = Ok (VString value length)
  | VList items =>
      (fix all (items : list obj) : Prop :=
         match items with
         | [] => True
         | item :: items => constructed item /\ all items
         end) items
  | VOid o => exists identifiers,
      Forall (fun c => 0 <= c) identifiers /\ Oid.init identifiers = Ok o
  | VGetResponse _ _ => False
  end.

(** [consume] reads the bytes of [o] back, in front of any other bytes,
    as an object equal to [o]. *)
Definition reads_back (o : obj) : Prop :=
  forall data,
    obj_to_bytes o = Ok data ->
    is_bytes data /\ (2 <= length data)%nat /\
    forall rest,
      is_bytes rest ->
      exists o', consume (data ++ rest) = Ok (Some o', rest) /\ obj_eqb o' o = true.

(** * Properties *)

Example encode_length_127 : encode_length 127 = Ok 127.
Proof. reflexivity. Qed.

Example consume_length_long_example :
  consume_length [130; 1; 2; 7; 7] = Ok (258, [7; 7]).
Proof. reflexivity. Qed.

Example Integer_to_bytes_8072 : Integer.to_bytes 4 8072 = Ok [2; 2; 31; 136].
Proof. reflexivity. Qed.

Example hex02_162 : hex02 162 = "a2".
Proof. reflexivity. Qed.

Example Oid_sysoid_bytes :
  bind (Oid.init [1; 3; 6; 1; 4; 1; 8072; 3; 2; 10]) Oid.to_bytes
  = Ok [6; 10; 43; 6; 1; 4; 1; 191; 8; 3; 2; 10].
Proof. reflexivity. Qed.

Example Oid_sysoid_from_bytes :
  bind (Oid.from_bytes [6; 10; 43; 6; 1; 4; 1; 191; 8; 3; 2; 10])
       (fun o => Ok (Oid.identifiers o))
  = Ok [1; 3; 6; 1; 4; 1; 8072; 3; 2; 10].
Proof. reflexivity. Qed.

Example sample_response_decodes :
  GetResponse_from_bytes sample_response
  = Ok (VGetResponse (Some (VInteger 0)) (VString "hi" 2)).
Proof. reflexivity. Qed.

Example sample_message_decodes :
  consume ([48; 34; 2; 1; 1; 4; 6; 112; 117; 98; 108; 105; 99] ++ sample_response)
  = Ok (Some (VList [VInteger 1; VString "public" 6;
                     VGetResponse (Some (VInteger 0)) (VString "hi" 2)]), []).
Proof. reflexivity. Qed.

Example error_response_raises :
  GetResponse_from_bytes error_response = Raise (SnmpError "Error packet received!").
Proof. reflexivity. Qed.

Example error_message_raises :
  consume error_message = Raise (SnmpError "Error packet received!").
Proof. reflexivity. Qed.

Example two_varbind_response_decodes :
  GetResponse_from_bytes two_varbind_response
  = Ok (VGetResponse (Some (VInteger 0)) (VString "hi" 2)).
Proof. reflexivity. Qed.

Example no_varbind_response_raises :
  GetResponse_from_bytes no_varbind_response = Raise IndexError.
Proof. reflexivity. Qed.

Example truncated_integer_decodes :
  consume truncated_integer = Ok (Some (VInteger 1), []).
Proof. reflexivity. Qed.

(** ** Bit operations on Python integers *)

Lemma testbit_7 (n : Z) : Z.testbit n 7 = (128 <=? n mod 256).
Proof.
  pose proof (Z.testbit_spec' n 7 ltac:(lia)) as H.
  change (2 ^ 7) with 128 in H.
  destruct (Z.testbit n 7), (Z.leb_spec 128 (n mod 256)); cbn in H;
    try reflexivity; exfalso; revert H; Z.div_mod_to_equations; lia.
Qed.

Lemma land_128 (n : Z) : Z.land n 128 = if Z.testbit n 7 then 128 else 0.
Proof.
  apply Z.bits_inj'; intros i Hi.
  rewrite Z.land_spec. change 128 with (2 ^ 7) at 1.
  rewrite Z.pow2_bits_eqb by lia.
  destruct (Z.eqb_spec 7 i) as [<- | Hne].
  - destruct (Z.testbit n 7); reflexivity.
  - rewrite andb_false_r. destruct (Z.testbit n 7).
    + change 128 with (2 ^ 7). rewrite Z.pow2_bits_eqb by lia.
      symmetry. apply Z.eqb_neq. exact Hne.
    + rewrite Z.bits_0. reflexivity.
Qed.

Lemma land_127 (n : Z) : Z.land n 127 = n mod 128.
Proof. change 127 with (Z.ones 7). rewrite Z.land_ones by lia. reflexivity. Qed.

Lemma land_255 (n : Z) : Z.land n 255 = n mod 256.
Proof. change 255 with (Z.ones 8). rewrite Z.land_ones by lia. reflexivity. Qed.

Lemma shiftr_7 (n : Z) : Z.shiftr n 7 = n / 128.
Proof. rewrite Z.shiftr_div_pow2 by lia. reflexivity. Qed.

Lemma shiftr_8 (n : Z) : Z.shiftr n 8 = n / 256.
Proof. rewrite Z.shiftr_div_pow2 by lia. reflexivity. Qed.

Lemma land_128_small (d : Z) : 0 <= d < 128 -> Z.land d 128 = 0.
Proof.
  intros H. rewrite land_128, testbit_7.
  rewrite Z.mod_small by lia. destruct (Z.leb_spec 128 d); [lia | reflexivity].
Qed.

Lemma lor_128 (d : Z) : 0 <= d < 128 -> Z.lor d 128 = d + 128.
Proof.
  intros H. rewrite <- Z.lxor_lor by (apply land_128_small; exact H).
  symmetry. apply Z.add_nocarry_lxor. apply land_128_small; exact H.
Qed.

Lemma lxor_128 (d : Z) : 0 <= d < 128 -> Z.lxor (d + 128) 128 = d.
Proof.
  intros H. rewrite (Z.add_nocarry_lxor d 128) by (apply land_128_small; exact H).
  rewrite Z.lxor_assoc, Z.lxor_nilpotent, Z.lxor_0_r. reflexivity.
Qed.

(** ** The length field *)

Lemma encode_length_bit7_set (n : Z) :
  Z.testbit n 7 = true ->
  encode_length n
  = Raise (NotImplementedError "Length values above 127 are not yet implemented!").
Proof. intros H. unfold encode_length. rewrite land_128, H. reflexivity. Qed.

Lemma encode_length_bit7_clear (n : Z) :
  Z.testbit n 7 = false -> encode_length n = Ok n.
Proof. intros H. unfold encode_length. rewrite land_128, H. reflexivity. Qed.

(** C4, as the code has it: [encode_length(n)] returns the single byte
    [n] for every length [0 <= n < 128], 127 included, and
    [encode_length(128)] raises [NotImplementedError]; the long form is
    not produced. *)
Theorem encode_length_short_form (n : Z) :
  0 <= n < 128 ->
  encode_length n = Ok n /\ bytes_of [n] = Ok [n] /\
  encode_length 127 = Ok 127 /\
  encode_length 128
  = Raise (NotImplementedError "Length values above 127 are not yet implemented!").
Proof.
  intros H. repeat split.
  - apply encode_length_bit7_clear. rewrite testbit_7, Z.mod_small by lia.
    apply Z.leb_gt. lia.
  - unfold bytes_of, is_byte. cbn [forallb].
    destruct (Z.leb_spec 0 n); destruct (Z.ltb_spec n 256); try lia. reflexivity.
Qed.

Lemma encode_length_short_form_witness :
  encode_length 100 = Ok 100 /\ bytes_of [100] = Ok [100] /\
  encode_length 127 = Ok 127 /\
  encode_length 128
  = Raise (NotImplementedError "Length values above 127 are not yet implemented!").
Proof. apply (encode_length_short_form 100). lia. Defined.

(** C4, as stated, fails: [encode_length(128)] does not yield the long
    form [0x81, 0x80]; it yields nothing at all. *)
Lemma encode_length_128_no_long_form :
  raises (encode_length 128) = true /\
  ~ (exists r, encode_length 128 = Ok r).
Proof.
  split; [reflexivity |]. intros [r Hr]. discriminate Hr.
Qed.

(** C9: [encode_length] raises [NotImplementedError] exactly when bit 7
    of [n] is set, that is when [128 <= n % 256]; with bit 7 clear it
    returns [n] unchanged, also for [n >= 256] such as 256. *)
Theorem encode_length_rejects_exactly_bit7 (n : Z) :
  (Z.testbit n 7 = true <-> 128 <= n mod 256) /\
  (raises (encode_length n) = true <-> Z.testbit n 7 = true) /\
  (Z.testbit n 7 = true ->
   encode_length n
   = Raise (NotImplementedError "Length values above 127 are not yet implemented!")) /\
  (Z.testbit n 7 = false -> encode_length n = Ok n) /\
  (256 <= n -> n mod 256 < 128 -> encode_length n = Ok n) /\
  encode_length 256 = Ok 256.
Proof.
  repeat split.
  - rewrite testbit_7. apply Z.leb_le.
  - rewrite testbit_7. apply Z.leb_le.
  - destruct (Z.testbit n 7) eqn:E; [reflexivity |].
    rewrite (encode_length_bit7_clear n E). discriminate.
  - intros E. rewrite (encode_length_bit7_set n E). reflexivity.
  - apply encode_length_bit7_set.
  - apply encode_length_bit7_clear.
  - intros _ H. apply encode_length_bit7_clear. rewrite testbit_7.
    apply Z.leb_gt. exact H.
Qed.

Lemma encode_length_rejects_exactly_bit7_witness :
  encode_length 300 = Ok 300 /\
  encode_length 200
  = Raise (NotImplementedError "Length values above 127 are not yet implemented!").
Proof.
  split.
  - apply (encode_length_rejects_exactly_bit7 300); [lia | reflexivity].
  - apply (encode_length_rejects_exactly_bit7 200). reflexivity.
Defined.

Lemma slice_from_1_cons (b : Z) (data : bytes) : slice_from 1 (b :: data) = data.
Proof. reflexivity. Qed.

Lemma int_from_bytes_big_single (b : Z) : int_from_bytes_big [b] = b.
Proof. unfold int_from_bytes_big. cbn [fold_left]. lia. Qed.

Lemma consume_length_short (d0 : Z) (rest : bytes) :
  Z.land d0 128 = 0 -> consume_length (d0 :: rest) = Ok (d0, rest).
Proof.
  intros H. unfold consume_length. cbn [index0 bind].
  destruct (Z.eqb_spec d0 255) as [-> | _]; [discriminate H |].
  rewrite H. cbn [Z.eqb]. rewrite int_from_bytes_big_single. reflexivity.
Qed.

Lemma consume_length_long (N : Z) (rest : bytes) :
  1 <= N <= 126 ->
  consume_length (Z.lor 128 N :: rest)
  = Ok (int_from_bytes_big (firstn (Z.to_nat N) rest), skipn (Z.to_nat N) rest).
Proof.
  intros H. rewrite Z.lor_comm, lor_128 by lia.
  unfold consume_length. cbn [index0 bind].
  destruct (Z.eqb_spec (N + 128) 255) as [E | _]; [lia |].
  rewrite land_128, testbit_7, Z.mod_small by lia.
  destruct (Z.leb_spec 128 (N + 128)) as [_ | E]; [| lia].
  cbn [Z.eqb]. rewrite lxor_128 by lia.
  destruct (Z.eqb_spec N 0) as [E | _]; [lia |].
  rewrite int_from_bytes_big_single. unfold slice, slice_from.
  replace (Z.to_nat (1 + N) - Z.to_nat 1)%nat with (Z.to_nat N) by lia.
  replace (Z.to_nat (N + 1)) with (S (Z.to_nat N)) by lia.
  reflexivity.
Qed.

(** C5: [consume_length] on a buffer that starts with the octet [d0]:
    with the top bit of [d0] clear it returns [d0] itself; with
    [d0 = 0x80 | N] for [N] in 1..126 it returns the big-endian integer
    of the [N] octets that follow (of those present, when the buffer is
    shorter); for [d0 = 0xFF] and [d0 = 0x80] it raises
    [NotImplementedError].  In the two successful cases the rest of the
    buffer is returned with the length. *)
Theorem consume_length_forms (d0 : Z) (rest : bytes) :
  (Z.land d0 128 = 0 -> consume_length (d0 :: rest) = Ok (d0, rest)) /\
  (forall N, 1 <= N <= 126 -> d0 = Z.lor 128 N ->
     consume_length (d0 :: rest)
     = Ok (int_from_bytes_big (firstn (Z.to_nat N) rest), skipn (Z.to_nat N) rest)) /\
  (d0 = 255 ->
     consume_length (d0 :: rest)
     = Raise (NotImplementedError "This is a reserved case in X690")) /\
  (d0 = 128 ->
     consume_length (d0 :: rest)
     = Raise (NotImplementedError "Indefinite lenghts are not yet implemented!")).
Proof.
  repeat split.
  - apply consume_length_short.
  - intros N HN ->. apply consume_length_long. exact HN.
  - intros ->. reflexivity.
  - intros ->. reflexivity.
Qed.

Lemma consume_length_forms_witness :
  consume_length [5; 9; 9] = Ok (5, [9; 9]) /\
  consume_length [130; 1; 2; 7; 7] = Ok (258, [7; 7]) /\
  consume_length [255; 1] = Raise (NotImplementedError "This is a reserved case in X690") /\
  consume_length [128; 1]
  = Raise (NotImplementedError "Indefinite lenghts are not yet implemented!").
Proof.
  split; [| split; [| split]].
  - apply (consume_length_forms 5 [9; 9]). reflexivity.
  - apply (proj1 (proj2 (consume_length_forms 130 [1; 2; 7; 7])) 2); [lia | reflexivity].
  - apply (consume_length_forms 255 [1]). reflexivity.
  - apply (consume_length_forms 128 [1]). reflexivity.
Defined.

(** ** Integer *)

Lemma int_from_bytes_big_acc (octets : bytes) (acc : Z) :
  fold_left (fun acc b => acc * 256 + b) octets acc
  = acc * 256 ^ len octets + int_from_bytes_big octets.
Proof.
  unfold int_from_bytes_big, len. revert acc.
  induction octets as [| b octets IH]; intros acc.
  - cbn. lia.
  - cbn [fold_left length]. rewrite IH, (IH (0 * 256 + b)).
    rewrite Nat2Z.inj_succ, Z.pow_succ_r by lia. lia.
Qed.

Lemma int_from_bytes_big_cons (b : Z) (octets : bytes) :
  int_from_bytes_big (b :: octets) = b * 256 ^ len octets + int_from_bytes_big octets.
Proof.
  unfold int_from_bytes_big at 1. cbn [fold_left].
  rewrite int_from_bytes_big_acc. lia.
Qed.

Lemma int_from_bytes_big_snoc (octets : bytes) (b : Z) :
  int_from_bytes_big (octets ++ [b]) = int_from_bytes_big octets * 256 + b.
Proof. unfold int_from_bytes_big. rewrite fold_left_app. reflexivity. Qed.

Lemma int_from_bytes_big_range (octets : bytes) :
  is_bytes octets -> 0 <= int_from_bytes_big octets < 256 ^ len octets.
Proof.
  unfold is_bytes. induction 1 as [| b octets Hb _ IH].
  - cbn. lia.
  - rewrite int_from_bytes_big_cons. unfold len in *. cbn [length].
    rewrite Nat2Z.inj_succ, Z.pow_succ_r by lia. nia.
Qed.

Lemma is_bytes_skipn (k : nat) (data : bytes) : is_bytes data -> is_bytes (skipn k data).
Proof.
  unfold is_bytes. rewrite !Forall_forall. intros H b Hb. apply H.
  rewrite <- (firstn_skipn k data). apply in_or_app. right. exact Hb.
Qed.

Lemma is_bytes_firstn (k : nat) (data : bytes) : is_bytes data -> is_bytes (firstn k data).
Proof.
  unfold is_bytes. rewrite !Forall_forall. intros H b Hb. apply H.
  rewrite <- (firstn_skipn k data). apply in_or_app. left. exact Hb.
Qed.

(** What [consume_length] returns is a suffix of its argument, at least
    one octet shorter. *)
Lemma consume_length_suffix (data : bytes) (length : Z) (rest : bytes) :
  is_bytes data ->
  consume_length data = Ok (length, rest) ->
  exists k, rest = skipn (S k) data.
Proof.
  intros Hdata. unfold consume_length. destruct data as [| d0 data]; [discriminate |].
  cbn [index0 bind].
  destruct (d0 =? 255); [discriminate |].
  destruct (Z.land d0 128 =? 0).
  - intros [= _ <-]. exists 0%nat. reflexivity.
  - destruct (Z.lxor d0 128 =? 0); [discriminate |].
    intros [= _ <-]. unfold slice_from.
    rewrite int_from_bytes_big_single.
    assert (0 <= Z.lxor d0 128) as Hx.
    { apply Z.lxor_nonneg. apply Forall_inv in Hdata. split; intros _; lia. }
    exists (Z.to_nat (Z.lxor d0 128)). f_equal. lia.
Qed.

Lemma consume_length_is_bytes (data : bytes) (length : Z) (rest : bytes) :
  is_bytes data ->
  consume_length data = Ok (length, rest) ->
  is_bytes rest /\ 0 <= length /\ (List.length rest < List.length data)%nat.
Proof.
  intros Hdata H.
  destruct (consume_length_suffix data length rest Hdata H) as [k ->].
  split; [apply is_bytes_skipn; exact Hdata |].
  split.
  - revert H. unfold consume_length. destruct data as [| d0 data]; [discriminate |].
    cbn [index0 bind].
    destruct (d0 =? 255); [discriminate |].
    destruct (Z.land d0 128 =? 0).
    + intros [= <- _]. rewrite int_from_bytes_big_single.
      apply Forall_inv in Hdata. lia.
    + destruct (Z.lxor d0 128 =? 0); [discriminate |].
      intros [= <- _]. apply int_from_bytes_big_range.
      unfold slice. apply is_bytes_firstn, is_bytes_skipn. exact Hdata.
  - rewrite length_skipn. destruct data; [discriminate H | cbn [List.length]; lia].
Qed.

(** C10: [Integer.from_bytes] reads the content octets as an unsigned
    big-endian integer: whenever it accepts a byte buffer, the value it
    returns is the unsigned reading of the octets after the length field
    and is non-negative, whatever the top bit of the first content octet. *)
Theorem Integer_from_bytes_unsigned (data : bytes) (value : Z) :
  is_bytes data ->
  Integer.from_bytes data = Ok value ->
  0 <= value /\
  exists length content,
    consume_length (slice_from 1 data) = Ok (length, content) /\
    value = int_from_bytes_big content.
Proof.
  intros Hdata. unfold Integer.from_bytes.
  destruct data as [| d0 data]; [discriminate |]. cbn [index0 bind].
  destruct (negb (d0 =? Integer.HEADER)); [discriminate |].
  destruct (consume_length (slice_from 1 (d0 :: data))) as [[length content] | e |] eqn:E;
    cbn [bind]; try discriminate.
  intros [= <-]. split.
  - apply int_from_bytes_big_range.
    apply (consume_length_is_bytes _ _ _ (is_bytes_skipn _ _ Hdata) E).
  - exists length, content. split; reflexivity.
Qed.

Lemma Integer_from_bytes_unsigned_witness :
  Integer.from_bytes [2; 1; 128] = Ok 128 /\ 0 <= 128 /\
  exists length content,
    consume_length (slice_from 1 [2; 1; 128]) = Ok (length, content) /\
    128 = int_from_bytes_big content.
Proof.
  split; [reflexivity |].
  apply (Integer_from_bytes_unsigned [2; 1; 128] 128).
  - repeat constructor; lia.
  - reflexivity.
Defined.

Lemma is_bytes_app (l1 l2 : bytes) : is_bytes l1 -> is_bytes l2 -> is_bytes (l1 ++ l2).
Proof. unfold is_bytes. intros H1 H2. apply Forall_app. split; assumption. Qed.

Lemma is_bytes_rev (l : bytes) : is_bytes l -> is_bytes (rev l).
Proof. unfold is_bytes. apply Forall_rev. Qed.

Lemma bytes_of_is_bytes (l : list Z) : is_bytes l -> bytes_of l = Ok l.
Proof.
  intros H. unfold bytes_of.
  assert (forallb is_byte l = true) as ->; [| reflexivity].
  apply forallb_forall. unfold is_bytes in H. rewrite Forall_forall in H.
  intros b Hb. specialize (H b Hb). unfold is_byte.
  apply andb_true_intro. split; [apply Z.leb_le | apply Z.ltb_lt]; lia.
Qed.

Lemma len_app {A : Type} (l1 l2 : list A) : len (l1 ++ l2) = len l1 + len l2.
Proof. unfold len. rewrite length_app. lia. Qed.

Lemma len_rev {A : Type} (l : list A) : len (rev l) = len l.
Proof. unfold len. rewrite length_rev. reflexivity. Qed.

Lemma len_nonneg {A : Type} (l : list A) : 0 <= len l.
Proof. unfold len. lia. Qed.

(** The loop of [Integer.__bytes__] on a non-negative integer: it stops
    within [fuel] turns when [remainder < 256 ^ fuel], and has then
    appended the base-256 digits of [remainder], least significant first,
    the last one non-zero. *)
Lemma Integer_octets_loop_spec (fuel : nat) :
  forall (remainder : Z) (acc : list Z),
    0 <= remainder < 256 ^ Z.of_nat fuel ->
    exists digits,
      Integer.octets_loop fuel remainder acc = Ok (acc ++ digits) /\
      is_bytes digits /\
      int_from_bytes_big (rev digits) = remainder /\
      (remainder = 0 -> digits = []) /\
      (0 < remainder -> 256 ^ (len digits - 1) <= remainder).
Proof.
  induction fuel as [| fuel IH]; intros remainder acc H.
  - assert (remainder = 0) as -> by (cbn in H; lia).
    exists []. cbn. rewrite app_nil_r. repeat split; try constructor; lia.
  - cbn [Integer.octets_loop].
    destruct (Z.eqb_spec remainder 0) as [-> | Hne].
    + exists []. rewrite app_nil_r. repeat split; try constructor; lia.
    + rewrite land_255, shiftr_8.
      rewrite Nat2Z.inj_succ, Z.pow_succ_r in H by lia.
      destruct (IH (remainder / 256) (acc ++ [remainder mod 256])) as
        (digits & Hloop & Hbytes & Hvalue & Hzero & Hlow).
      { split; [apply Z.div_pos; lia | apply Z.div_lt_upper_bound; lia]. }
      exists (remainder mod 256 :: digits).
      rewrite Hloop, <- app_assoc. cbn [app].
      split; [reflexivity |]. split.
      { constructor; [apply Z.mod_pos_bound; lia | exact Hbytes]. }
      split.
      { cbn [rev]. rewrite int_from_bytes_big_snoc, Hvalue.
        pose proof (Z.div_mod remainder 256). lia. }
      split; [intros E; contradiction |].
      intros _. unfold len in *. cbn [length].
      replace (Z.of_nat (S (length digits)) - 1) with (Z.of_nat (length digits)) by lia.
      pose proof (Z.div_mod remainder 256 ltac:(lia)) as Hdm.
      pose proof (Z.mod_pos_bound remainder 256 ltac:(lia)) as Hm.
      destruct (Z.eq_dec (remainder / 256) 0) as [E0 | E0].
      * rewrite (Hzero E0). cbn. lia.
      * assert (0 < remainder / 256) as Hpos.
        { pose proof (Z.div_pos remainder 256). lia. }
        specialize (Hlow Hpos).
        destruct digits as [| d digits]; [cbn; lia |].
        cbn [length] in *.
        replace (Z.of_nat (S (length digits)) - 1) with (Z.of_nat (length digits))
          in Hlow by lia.
        rewrite Nat2Z.inj_succ, Z.pow_succ_r by lia. lia.
Qed.

(** More fuel does not change a result. *)
Lemma Integer_octets_loop_more_fuel (fuel : nat) :
  forall remainder acc result,
    Integer.octets_loop fuel remainder acc = Ok result ->
    Integer.octets_loop (S fuel) remainder acc = Ok result.
Proof.
  induction fuel as [| fuel IH]; intros remainder acc result.
  - cbn. destruct (remainder =? 0); [trivial | discriminate].
  - intros H. cbn [Integer.octets_loop] in H |- *.
    destruct (remainder =? 0); [exact H |].
    apply IH in H. exact H.
Qed.

(** On a negative integer the loop never stops: [remainder >> 8] stays
    negative, so no amount of fuel is enough. *)
Lemma Integer_octets_negative_diverges (fuel : nat) :
  forall value acc, value < 0 -> Integer.octets_loop fuel value acc = Fuel.
Proof.
  induction fuel as [| fuel IH]; intros value acc H; cbn [Integer.octets_loop];
    destruct (Z.eqb_spec value 0) as [E | _]; try lia; try reflexivity.
  apply IH. rewrite shiftr_8. apply Z.div_lt_upper_bound; lia.
Qed.

(** C8, as the code has it: for every non-negative integer
    [Integer.__bytes__] produces the minimal big-endian unsigned octet
    sequence (no sign octet is added): the octets are bytes, their
    unsigned reading is the value, no non-empty byte sequence with the
    same reading is shorter, and zero gives the single octet 0x00.  The
    header is the tag 0x02 and the number of octets. *)
Theorem Integer_octets_unsigned_minimal (fuel : nat) (value : Z) :
  0 <= value < 256 ^ Z.of_nat fuel ->
  exists octets,
    Integer.octets fuel value = Ok octets /\
    is_bytes octets /\ octets <> [] /\
    int_from_bytes_big octets = value /\
    (forall other, is_bytes other -> other <> [] ->
                   int_from_bytes_big other = value -> len octets <= len other) /\
    (value = 0 -> octets = [0]) /\
    (len octets < 256 ->
     Integer.to_bytes fuel value = Ok (2 :: len octets :: octets)).
Proof.
  intros H. unfold Integer.to_bytes, Integer.octets.
  destruct (Z.eqb_spec value 0) as [-> | Hne].
  - exists [0]. split; [reflexivity |].
    split; [repeat constructor; lia |]. split; [discriminate |].
    split; [reflexivity |]. split.
    + intros other _ Hother _. destruct other; [contradiction |].
      unfold len. cbn [length]. lia.
    + split; reflexivity.
  - destruct (Integer_octets_loop_spec fuel value [] H) as
      (digits & Hloop & Hbytes & Hvalue & _ & Hlow).
    rewrite Hloop. cbn [bind app].
    exists (rev digits). split; [reflexivity |].
    split; [apply is_bytes_rev; exact Hbytes |].
    assert (digits <> []) as Hnil.
    { intros ->. cbn in Hvalue. lia. }
    split.
    { intros E. apply Hnil. apply (f_equal (@rev Z)) in E.
      rewrite rev_involutive in E. exact E. }
    split; [exact Hvalue |]. split.
    + intros other Hother _ Hsame.
      pose proof (int_from_bytes_big_range other Hother) as Hr.
      rewrite Hsame in Hr. rewrite len_rev.
      specialize (Hlow ltac:(lia)).
      destruct (Z_lt_le_dec (len other) (len digits)) as [Hlt | Hle]; [| exact Hle].
      exfalso.
      assert (256 ^ len other <= 256 ^ (len digits - 1)).
      { apply Z.pow_le_mono_r; [lia |]. pose proof (len_nonneg other). lia. }
      lia.
    + split; [intros E; contradiction |].
      intros Hlen. apply bytes_of_is_bytes.
      constructor; [cbn; lia |].
      constructor; [pose proof (len_nonneg (rev digits)); lia |].
      apply is_bytes_rev; exact Hbytes.
Qed.

Lemma Integer_octets_unsigned_minimal_witness :
  exists octets,
    Integer.octets 2 8072 = Ok octets /\
    is_bytes octets /\ octets <> [] /\
    int_from_bytes_big octets = 8072 /\
    (forall other, is_bytes other -> other <> [] ->
                   int_from_bytes_big other = 8072 -> len octets <= len other) /\
    (8072 = 0 -> octets = [0]) /\
    (len octets < 256 ->
     Integer.to_bytes 2 8072 = Ok (2 :: len octets :: octets)).
Proof. apply (Integer_octets_unsigned_minimal 2 8072). cbn. lia. Defined.

(** C8, as stated, fails: the octets produced for 128 are [0x80], which
    read as two's complement denote -128; no sign octet is emitted. *)
Lemma Integer_128_not_twos_complement :
  Integer.octets 1 128 = Ok [128] /\
  Integer.to_bytes 1 128 = Ok [2; 1; 128] /\
  (forall fuel octets, Integer.octets fuel 128 = Ok octets -> octets = [128]) /\
  int_from_bytes_big_signed [128] = -128 /\
  ~ twos_complement_encoding 128 [128].
Proof.
  split; [reflexivity |]. split; [reflexivity |]. split.
  - intros [| [| fuel]] octets; cbn; intros [= <-]; reflexivity.
  - split; [reflexivity |]. intros (_ & _ & H). discriminate H.
Qed.


(** ** Object identifiers *)

(** The loop of [encode_large_value] appends the base-128 digits of
    [value], least significant first, each with the continuation bit. *)
Lemma Oid_encode_loop_spec (fuel : nat) :
  forall (value : Z) (acc : list Z),
    0 <= value < 2 ^ Z.of_nat fuel ->
    exists digits,
      Oid.encode_loop fuel value acc = Ok (acc ++ map (fun d => d + 128) digits) /\
      Forall base128_digit digits /\
      base128_le digits = value.
Proof.
  induction fuel as [| fuel IH]; intros value acc H.
  - assert (value = 0) as -> by (cbn in H; lia).
    exists []. cbn. rewrite app_nil_r. repeat split. constructor.
  - cbn [Oid.encode_loop].
    destruct (Z.eqb_spec value 0) as [-> | Hne].
    + exists []. cbn. rewrite app_nil_r. repeat split. constructor.
    + rewrite land_127, shiftr_7.
      pose proof (Z.mod_pos_bound value 128 ltac:(lia)) as Hm.
      rewrite lor_128 by exact Hm.
      rewrite Nat2Z.inj_succ, Z.pow_succ_r in H by lia.
      destruct (IH (value / 128) (acc ++ [value mod 128 + 128])) as
        (digits & Hloop & Hdigits & Hvalue).
      { split; [apply Z.div_pos; lia | apply Z.div_lt_upper_bound; lia]. }
      exists (value mod 128 :: digits).
      rewrite Hloop, <- app_assoc. cbn [app map].
      split; [reflexivity |]. split; [constructor; assumption |].
      cbn [base128_le fold_right]. fold (base128_le digits). rewrite Hvalue.
      pose proof (Z.div_mod value 128). lia.
Qed.

Lemma Oid_encode_loop_more_fuel (fuel : nat) :
  forall value acc result,
    Oid.encode_loop fuel value acc = Ok result ->
    Oid.encode_loop (S fuel) value acc = Ok result.
Proof.
  induction fuel as [| fuel IH]; intros value acc result.
  - cbn. destruct (value =? 0); [trivial | discriminate].
  - intros H. cbn [Oid.encode_loop] in H |- *.
    destruct (value =? 0); [exact H |].
    apply IH in H. exact H.
Qed.

(** [encode_large_value] on a non-negative integer: the digits above the
    lowest, most significant first and with the continuation bit, then the
    lowest digit without it. *)
Lemma Oid_encode_large_value_spec (value : Z) :
  0 <= value ->
  exists digits low,
    Oid.encode_large_value value = Ok (map (fun d => d + 128) (rev digits) ++ [low]) /\
    Forall base128_digit digits /\ base128_digit low /\
    value = low + 128 * base128_le digits.
Proof.
  intros H. unfold Oid.encode_large_value, Oid.encode_large_value_fuel.
  destruct (Z.leb_spec value 127) as [Hsmall | Hlarge].
  - exists [], value. cbn. repeat split; try constructor; lia.
  - rewrite land_127, shiftr_7.
    pose proof (Z.log2_spec value ltac:(lia)) as Hlog.
    pose proof (Z.log2_nonneg value) as Hnn.
    rewrite Z.pow_succ_r in Hlog by lia.
    destruct (Oid_encode_loop_spec (Z.to_nat (Z.log2 value)) (value / 128)
                                   [value mod 128]) as (digits & Hloop & Hdigits & Hvalue).
    { rewrite Z2Nat.id by lia.
      split; [apply Z.div_pos; lia | apply Z.div_lt_upper_bound; lia]. }
    exists digits, (value mod 128).
    rewrite Hloop. cbn [bind]. rewrite rev_app_distr, map_rev. cbn [rev app].
    split; [reflexivity |]. split; [exact Hdigits |].
    split; [apply Z.mod_pos_bound; lia |].
    rewrite Hvalue. pose proof (Z.div_mod value 128). lia.
Qed.

(** [encode_large_value] stops on every integer, and more fuel than
    [Z.log2 value] turns gives the same digits. *)
Lemma encode_large_value_fuel_enough (value : Z) (fuel : nat) :
  (Z.to_nat (Z.log2 value) <= fuel)%nat ->
  returns (Oid.encode_large_value value) = true /\
  Oid.encode_large_value_fuel fuel value = Oid.encode_large_value value.
Proof.
  intros Hfuel.
  assert (returns (Oid.encode_large_value value) = true) as Hret.
  { destruct (Z.leb_spec value 127) as [Hsmall | Hlarge].
    - unfold Oid.encode_large_value, Oid.encode_large_value_fuel.
      destruct (Z.leb_spec value 127); [reflexivity | lia].
    - destruct (Oid_encode_large_value_spec value ltac:(lia)) as (ds & lo & -> & _).
      reflexivity. }
  split; [exact Hret |].
  unfold Oid.encode_large_value, Oid.encode_large_value_fuel in *.
  destruct (value <=? 127); [reflexivity |].
  destruct (Oid.encode_loop (Z.to_nat (Z.log2 value)) (Z.shiftr value 7)
                            [Z.land value 127]) as [out | e |] eqn:E;
    try discriminate Hret.
  assert (Oid.encode_loop fuel (Z.shiftr value 7) [Z.land value 127] = Ok out) as ->;
    [| reflexivity].
  induction Hfuel as [| fuel _ IH]; [exact E |].
  apply Oid_encode_loop_more_fuel. exact IH.
Qed.

Lemma Oid_decode_buffer_eq (current_char : Z) (stream buffer : list Z) :
  Oid.decode_buffer current_char stream buffer
  = if current_char >? 127 then
      match stream with
      | [] => Raise StopIteration
      | next :: stream' =>
          Oid.decode_buffer next stream' (buffer ++ [Z.lxor current_char 128])
      end
    else Ok (buffer, current_char, stream).
Proof. destruct stream; reflexivity. Qed.

(** The loop of [decode_large_value] strips the continuation bits up to
    the first octet without one and leaves the rest of the stream. *)
Lemma Oid_decode_buffer_spec (highs : list Z) :
  forall (low : Z) (tail buffer : list Z) (c : Z) (s : list Z),
    Forall base128_digit highs -> low <= 127 ->
    map (fun d => d + 128) highs ++ [low] = c :: s ->
    Oid.decode_buffer c (s ++ tail) buffer = Ok (buffer ++ highs, low, tail).
Proof.
  induction highs as [| h highs IH]; intros low tail buffer c s Hhighs Hlow Hcs.
  - cbn in Hcs. injection Hcs as <- <-. cbn [app].
    rewrite Oid_decode_buffer_eq, app_nil_r.
    destruct (Z.gtb_spec low 127); [lia | reflexivity].
  - cbn [map app] in Hcs. injection Hcs as <- <-.
    apply Forall_cons_iff in Hhighs as [Hh Hhighs]. unfold base128_digit in Hh.
    rewrite Oid_decode_buffer_eq.
    destruct (Z.gtb_spec (h + 128) 127); [| lia].
    rewrite lxor_128 by exact Hh.
    destruct (map (fun d => d + 128) highs ++ [low]) as [| c' s'] eqn:E.
    { destruct highs; discriminate E. }
    cbn [app]. rewrite (IH low tail (buffer ++ [h]) c' s' Hhighs Hlow E).
    rewrite <- app_assoc. reflexivity.
Qed.

(** The sum [total += digit * 128**(i+1)] over [enumerate(...)]. *)
Lemma Oid_total_spec (digits : list Z) :
  forall (k : nat) (total : Z),
    fold_left (fun total '(i, digit) => total + digit * 128 ^ (i + 1))
              (combine (map Z.of_nat (seq k (length digits))) digits) total
    = total + 128 ^ (Z.of_nat k + 1) * base128_le digits.
Proof.
  induction digits as [| d digits IH]; intros k total.
  - cbn. lia.
  - cbn [length seq map combine fold_left]. rewrite IH.
    cbn [base128_le fold_right]. fold (base128_le digits).
    rewrite Nat2Z.inj_succ.
    replace (Z.succ (Z.of_nat k) + 1) with (Z.succ (Z.of_nat k + 1)) by lia.
    rewrite Z.pow_succ_r by lia. lia.
Qed.

(** One turn of the loop of [Oid.from_bytes] reads back one encoded
    sub-identifier. *)
Lemma Oid_from_bytes_loop_component (value : Z) (digits : list Z) (low : Z) :
  forall (c : Z) (s tail : list Z) (fuel : nat) (output : list Z),
    Forall base128_digit digits -> base128_digit low ->
    value = low + 128 * base128_le digits ->
    map (fun d => d + 128) (rev digits) ++ [low] = c :: s ->
    Oid.from_bytes_loop (S fuel) ((c :: s) ++ tail) output
    = Oid.from_bytes_loop fuel tail (output ++ [value]).
Proof.
  intros c s tail fuel output Hdigits Hlow Hvalue Hcs. unfold base128_digit in Hlow.
  cbn [app Oid.from_bytes_loop].
  destruct (Z.gtb_spec c 127) as [Hc | Hc].
  - unfold Oid.decode_large_value.
    rewrite (Oid_decode_buffer_spec (rev digits) low tail [] c s);
      [| apply Forall_rev; exact Hdigits | lia | exact Hcs].
    cbn [bind app]. unfold enumerate.
    rewrite rev_involutive, Oid_total_spec.
    change (128 ^ (Z.of_nat 0 + 1)) with 128. rewrite <- Hvalue. reflexivity.
  - destruct (rev digits) as [| h highs] eqn:E.
    + cbn in Hcs. injection Hcs as <- <-.
      apply (f_equal (@rev Z)) in E. rewrite rev_involutive in E. cbn in E.
      subst digits. cbn in Hvalue. replace value with low by lia. reflexivity.
    + exfalso. cbn [map app] in Hcs. injection Hcs as <- _.
      assert (base128_digit h) as Hh.
      { apply Forall_rev in Hdigits. rewrite E in Hdigits.
        apply Forall_inv in Hdigits. exact Hdigits. }
      unfold base128_digit in Hh. lia.
Qed.

(** Packing the sub-identifiers and reading them back. *)
Lemma Oid_pack_unpack (rest : list Z) :
  Forall (fun c => 0 <= c) rest ->
  forall acc,
  exists packed,
    Oid.extend_encoded rest acc = Ok (acc ++ packed) /\
    is_bytes packed /\
    (length rest <= length packed)%nat /\
    forall fuel output,
      (length rest <= fuel)%nat ->
      Oid.from_bytes_loop fuel packed output = Ok (output ++ rest).
Proof.
  induction 1 as [| value rest Hvalue _ IH]; intros acc.
  - exists []. cbn. rewrite app_nil_r. split; [reflexivity |].
    split; [constructor |]. split; [lia |].
    intros [| fuel] output _; cbn; rewrite app_nil_r; reflexivity.
  - destruct (Oid_encode_large_value_spec value Hvalue) as
      (digits & low & Henc & Hdigits & Hlow & Hsum).
    destruct (IH (acc ++ map (fun d => d + 128) (rev digits) ++ [low])) as
      (packed & Hext & Hbytes & Hlen & Hloop).
    exists ((map (fun d => d + 128) (rev digits) ++ [low]) ++ packed).
    cbn [Oid.extend_encoded]. rewrite Henc. cbn [bind]. rewrite Hext.
    split; [rewrite <- !app_assoc; reflexivity |].
    split.
    { apply is_bytes_app; [| exact Hbytes].
      apply is_bytes_app.
      - unfold is_bytes. apply Forall_map. apply Forall_rev.
        revert Hdigits. apply Forall_impl. unfold base128_digit. intros d Hd. lia.
      - unfold base128_digit in Hlow. repeat constructor; lia. }
    split.
    { rewrite !length_app. cbn [length]. lia. }
    intros fuel output Hfuel. cbn [length] in Hfuel.
    destruct fuel as [| fuel]; [lia |].
    destruct (map (fun d => d + 128) (rev digits) ++ [low]) as [| c s] eqn:E.
    { destruct (rev digits); discriminate E. }
    rewrite (Oid_from_bytes_loop_component value digits low c s packed fuel output
               Hdigits Hlow Hsum E).
    rewrite Hloop by lia. rewrite <- app_assoc. reflexivity.
Qed.

Lemma list_eqb_refl (l : list Z) : list_eqb l l = true.
Proof. unfold list_eqb. destruct (list_eq_dec Z.eq_dec l l); [reflexivity | contradiction]. Qed.

(** C1, as the code has it: for every sequence of non-negative integers
    [first, second, rest...] (components above 127 included) whose first
    packed octet [40 * first + second] fits a byte, the packing of the
    sequence is defined, and when it has at most 127 octets the
    constructor, [__bytes__] and [Oid.from_bytes] all succeed and the
    decoded object is equal ([__eq__]) to the original.  Its identifiers
    are the original sequence when [second < 40]. *)
Theorem Oid_roundtrip (first second : Z) (rest : list Z) :
  0 <= first -> 0 <= second -> Forall (fun c => 0 <= c) rest ->
  40 * first + second <= 255 ->
  exists collapsed,
    Oid.extend_encoded rest [40 * first + second] = Ok collapsed /\
    (len collapsed <= 127 ->
     exists o data o',
       Oid.init (first :: second :: rest) = Ok o /\
       Oid.collapsed_identifiers o = collapsed /\
       Oid.to_bytes o = Ok data /\
       Oid.from_bytes data = Ok o' /\
       Oid.eqb o' o = true /\
       Oid.roundtrip (first :: second :: rest) = Ok o' /\
       (second < 40 -> Oid.identifiers o' = first :: second :: rest)).
Proof.
  intros Hfirst Hsecond Hrest Hbyte.
  set (first_output := 40 * first + second) in *.
  destruct (Oid_pack_unpack rest Hrest [first_output]) as
    (packed & Hext & Hbytes & Hlen & Hloop).
  exists ([first_output] ++ packed). split; [exact Hext |].
  intros Hshort. cbn [app] in *.
  pose proof (len_nonneg (first_output :: packed)) as Hnn.
  assert (encode_length (len (first_output :: packed))
          = Ok (len (first_output :: packed))) as Hlength.
  { apply encode_length_bit7_clear. rewrite testbit_7, Z.mod_small by lia.
    apply Z.leb_gt. lia. }
  assert (Oid.extend_encoded rest [40 * (first_output / 40) + first_output mod 40]
          = Ok (first_output :: packed)) as Hext'.
  { rewrite <- (Z.div_mod first_output 40) by lia. exact Hext. }
  set (o := Oid.Make (first :: second :: rest) (first_output :: packed)
                     (len (first_output :: packed))).
  set (o' := Oid.Make (first_output / 40 :: first_output mod 40 :: rest)
                      (first_output :: packed) (len (first_output :: packed))).
  set (data := Oid.HEADER :: len (first_output :: packed) :: first_output :: packed).
  assert (Oid.init (first :: second :: rest) = Ok o) as Hinit.
  { unfold Oid.init. fold first_output. rewrite Hext. cbn [bind].
    rewrite Hlength. reflexivity. }
  assert (Oid.to_bytes o = Ok data) as Hto.
  { unfold Oid.to_bytes. apply bytes_of_is_bytes. cbn.
    constructor; [unfold Oid.HEADER; lia |].
    constructor; [lia |].
    constructor; [subst first_output; lia | exact Hbytes]. }
  assert (Oid.from_bytes data = Ok o') as Hfrom.
  { unfold Oid.from_bytes, data. cbn [index0 bind]. rewrite Z.eqb_refl. cbn [negb].
    rewrite slice_from_1_cons.
    rewrite consume_length_short by (apply land_128_small; lia).
    cbn [bind index0]. rewrite slice_from_1_cons.
    rewrite Hloop by exact Hlen. cbn [bind app].
    unfold Oid.init. rewrite Hext'. cbn [bind]. rewrite Hlength. reflexivity. }
  exists o, data, o'.
  split; [exact Hinit |]. split; [reflexivity |]. split; [exact Hto |].
  split; [exact Hfrom |]. split; [apply list_eqb_refl |]. split.
  - unfold Oid.roundtrip. rewrite Hinit. cbn [bind]. rewrite Hto. exact Hfrom.
  - intros Hsmall. cbn [o' Oid.identifiers]. subst first_output.
    f_equal; [| f_equal]; Z.div_mod_to_equations; lia.
Qed.

Lemma Oid_roundtrip_witness :
  exists o',
    Oid.roundtrip [1; 3; 6; 1; 4; 1; 8072; 3; 2; 10] = Ok o' /\
    Oid.identifiers o' = [1; 3; 6; 1; 4; 1; 8072; 3; 2; 10].
Proof.
  destruct (Oid_roundtrip 1 3 [6; 1; 4; 1; 8072; 3; 2; 10]) as (collapsed & Hpack & Hrt);
    try lia; [repeat constructor; lia |].
  vm_compute in Hpack. injection Hpack as <-.
  destruct Hrt as (o & data & o' & _ & _ & _ & _ & _ & Hround & Hids);
    [vm_compute; discriminate |].
  exists o'. split; [exact Hround | apply Hids; lia].
Defined.

(** C1, as stated, fails: the sequence 7.0 packs its first two components
    into 280, which [bytes(...)] refuses, and a sequence of 130 components
    has a packed length that [encode_length] refuses. *)
Lemma Oid_roundtrip_fails :
  Oid.roundtrip [7; 0] = Raise (ValueError "bytes must be in range(0, 256)") /\
  Oid.roundtrip (repeat 1 130)
  = Raise (NotImplementedError "Length values above 127 are not yet implemented!").
Proof. split; vm_compute; reflexivity. Qed.


(** ** The TLV decoder *)

Lemma consume_length_stops (data : bytes) : consume_length data <> Fuel.
Proof.
  unfold consume_length. destruct data as [| d0 data]; [discriminate |].
  cbn [index0 bind].
  destruct (d0 =? 255); [discriminate |].
  destruct (Z.land d0 128 =? 0); [discriminate |].
  destruct (Z.lxor d0 128 =? 0); discriminate.
Qed.

(** One level of the recursion is [consume_body] over the level below. *)
Lemma consume_cons (type : Z) (data : bytes) :
  consume (type :: data) = consume_body (consume_fuel (S (length data))) (type :: data).
Proof. reflexivity. Qed.

(** C7, as the code has it: on a buffer whose leading type octet is none
    of 0x02, 0x04, 0x05, 0x06, 0x30, 0xa2 the decoder always raises and
    returns no value; [consume] decodes the length field before it looks
    at the type, so the exception is the [ValueError] naming the octet
    whenever the length field decodes, and the exception of
    [consume_length] otherwise. *)
Theorem consume_unknown_type (type : Z) (data : bytes) :
  supported_type type = false ->
  (exists e, consume (type :: data) = Raise e) /\
  (forall length remainder,
      consume_length data = Ok (length, remainder) ->
      consume (type :: data)
      = Raise (ValueError ("Unknown type header: 0x" ++ hex02 type)%string)) /\
  (forall e, consume_length data = Raise e -> consume (type :: data) = Raise e).
Proof.
  intros Htype. unfold supported_type in Htype.
  repeat (apply orb_false_elim in Htype; destruct Htype as [Htype ?]).
  assert (forall length remainder,
             consume_length data = Ok (length, remainder) ->
             consume (type :: data)
             = Raise (ValueError ("Unknown type header: 0x" ++ hex02 type)%string)) as Hok.
  { intros length remainder E. rewrite consume_cons. unfold consume_body.
    cbn [index0 bind]. rewrite slice_from_1_cons, E. cbn [bind].
    repeat match goal with H : (type =? _) = false |- _ => rewrite H; clear H end.
    reflexivity. }
  assert (forall e, consume_length data = Raise e -> consume (type :: data) = Raise e)
    as Herr.
  { intros e E. rewrite consume_cons. unfold consume_body.
    cbn [index0 bind]. rewrite slice_from_1_cons, E. reflexivity. }
  split; [| split; assumption].
  destruct (consume_length data) as [[length remainder] | e |] eqn:E.
  - eexists. apply (Hok length remainder). reflexivity.
  - exists e. apply Herr. reflexivity.
  - exfalso. exact (consume_length_stops data E).
Qed.

Lemma consume_unknown_type_witness :
  consume [7; 1; 0] = Raise (ValueError "Unknown type header: 0x07").
Proof.
  apply (proj1 (proj2 (consume_unknown_type 7 [1; 0] eq_refl)) 1 [0]). reflexivity.
Defined.

(** C7, as stated, fails: with the reserved length octet 0xFF after an
    unknown type octet the error is the one of [consume_length], and with
    no length octet at all it is an [IndexError]. *)
Lemma consume_unknown_type_other_error :
  supported_type 7 = false /\
  consume [7; 255] = Raise (NotImplementedError "This is a reserved case in X690") /\
  consume [7] = Raise IndexError.
Proof. repeat split. Qed.

(** ** GetResponse *)

(** What [GetResponse.from_bytes] does with the fields as [consume] reads
    them: when the three leading fields decode and the error status read
    is a non-zero [Integer], it raises [SnmpError] and returns nothing;
    and whenever it returns a response, the error status read is zero
    (false). *)
Theorem GetResponse_error_status :
  (forall (data payload d1 d2 d3 : bytes) (expected status : Z)
          (request_id error_index : option obj),
      index0 data = Ok 162 ->
      consume_length (slice_from 1 data) = Ok (expected, payload) ->
      len payload = expected ->
      consume payload = Ok (request_id, d1) ->
      consume d1 = Ok (Some (VInteger status), d2) ->
      consume d2 = Ok (error_index, d3) ->
      status <> 0 ->
      GetResponse_from_bytes data = Raise (SnmpError "Error packet received!")) /\
  (forall (data : bytes) (response : obj),
      GetResponse_from_bytes data = Ok response ->
      exists expected payload request_id d1 error_code d2,
        consume_length (slice_from 1 data) = Ok (expected, payload) /\
        consume payload = Ok (request_id, d1) /\
        consume d1 = Ok (error_code, d2) /\
        value_attr_truth error_code = Ok false /\
        forall status, error_code = Some (VInteger status) -> status = 0).
Proof.
  split.
  - intros data payload d1 d2 d3 expected status request_id error_index
           Hhead Hlen Hexp Hid Hstatus Hindex Hnz.
    unfold GetResponse_from_bytes, GetResponse_from_bytes_rec.
    rewrite Hhead. cbn [bind Z.eqb Pos.eqb negb]. rewrite Hlen. cbn [bind].
    rewrite Hexp, Z.eqb_refl. cbn [negb].
    rewrite Hid. cbn [bind]. rewrite Hstatus. cbn [bind]. rewrite Hindex.
    cbn [bind value_attr_truth].
    destruct (Z.eqb_spec status 0); [contradiction | reflexivity].
  - intros data response.
    unfold GetResponse_from_bytes, GetResponse_from_bytes_rec.
    destruct (index0 data) as [d0 | |]; cbn [bind]; try discriminate.
    destruct (negb (d0 =? 162)); [discriminate |].
    destruct (consume_length (slice_from 1 data)) as [[expected payload] | |] eqn:Elen;
      cbn [bind]; try discriminate.
    destruct (negb (len payload =? expected)); [discriminate |].
    destruct (consume payload) as [[request_id d1] | |] eqn:Eid;
      cbn [bind]; try discriminate.
    destruct (consume d1) as [[error_code d2] | |] eqn:Estatus;
      cbn [bind]; try discriminate.
    destruct (consume d2) as [[error_index d3] | |]; cbn [bind]; try discriminate.
    destruct (value_attr_truth error_code) as [[|] | |] eqn:Etruth;
      cbn [bind]; try discriminate.
    intros _. exists expected, payload, request_id, d1, error_code, d2.
    split; [reflexivity |]. split; [exact Eid |]. split; [exact Estatus |].
    split; [exact Etruth |]. intros status ->. cbn in Etruth.
    destruct (Z.eqb_spec status 0); [assumption | discriminate].
Qed.

Lemma GetResponse_error_status_witness :
  GetResponse_from_bytes error_response = Raise (SnmpError "Error packet received!").
Proof.
  apply (proj1 GetResponse_error_status error_response
               [2; 1; 0; 2; 1; 5; 2; 1; 0; 48; 10; 48; 8; 6; 2; 42; 3; 4; 2; 104; 105]
               [2; 1; 5; 2; 1; 0; 48; 10; 48; 8; 6; 2; 42; 3; 4; 2; 104; 105]
               [2; 1; 0; 48; 10; 48; 8; 6; 2; 42; 3; 4; 2; 104; 105]
               [48; 10; 48; 8; 6; 2; 42; 3; 4; 2; 104; 105]
               21 5 (Some (VInteger 0)) (Some (VInteger 0)));
    try reflexivity.
  discriminate.
Defined.

(** C3 on the code: a response whose varbind list holds two varbinds is
    decoded without any error and the value of the first varbind is
    returned; an empty varbind list fails on [values.items[0]]. *)
Theorem GetResponse_two_varbinds_accepted :
  GetResponse_from_bytes two_varbind_response
  = Ok (VGetResponse (Some (VInteger 0)) (VString "hi" 2)) /\
  GetResponse_from_bytes no_varbind_response = Raise IndexError.
Proof. split; vm_compute; reflexivity. Qed.

(** [GetResponse.from_bytes] compares the length in its header with the
    number of octets that follow. *)
Lemma GetResponse_length_checked (data payload : bytes) (expected : Z) :
  index0 data = Ok 162 ->
  consume_length (slice_from 1 data) = Ok (expected, payload) ->
  len payload <> expected ->
  GetResponse_from_bytes data
  = Raise (ValueError
             ("Corrupt packet: Unexpected length for GET response! Expected 0x"
              ++ hex02 expected ++ " but got 0x" ++ hex02 (len payload))%string).
Proof.
  intros Hhead Hlen Hne. unfold GetResponse_from_bytes, GetResponse_from_bytes_rec.
  rewrite Hhead. cbn [bind Z.eqb Pos.eqb negb]. rewrite Hlen. cbn [bind].
  destruct (Z.eqb_spec (len payload) expected); [contradiction | reflexivity].
Qed.

(** C6 on the code: an INTEGER whose header announces five content octets
    and carries one is decoded to the value of that one octet; neither
    [consume] nor [Integer.from_bytes] compares the length with the octets
    present. *)
Theorem consume_ignores_length_mismatch :
  consume truncated_integer = Ok (Some (VInteger 1), []) /\
  Integer.from_bytes truncated_integer = Ok 1 /\
  consume_length (slice_from 1 truncated_integer) = Ok (5, [1]).
Proof. repeat split. Qed.


(** ** The recursion of [consume] is never cut short *)

Lemma bind_stops {A B : Type} (m : outcome A) (k : A -> outcome B) :
  m <> Fuel -> (forall a, m = Ok a -> k a <> Fuel) -> bind m k <> Fuel.
Proof.
  intros Hm Hk. destruct m as [a | e |]; cbn [bind].
  - apply Hk. reflexivity.
  - discriminate.
  - contradiction.
Qed.

Lemma encode_length_stops (n : Z) : encode_length n <> Fuel.
Proof. unfold encode_length. destruct (negb (Z.land n 128 =? 0)); discriminate. Qed.

Lemma Integer_from_bytes_stops (data : bytes) : Integer.from_bytes data <> Fuel.
Proof.
  unfold Integer.from_bytes. destruct data as [| d0 data]; [discriminate |].
  cbn [index0 bind]. destruct (negb (d0 =? Integer.HEADER)); [discriminate |].
  apply bind_stops; [apply consume_length_stops |].
  intros [length value] _. discriminate.
Qed.

Lemma String_from_bytes_stops (data : bytes) : String_from_bytes data <> Fuel.
Proof.
  unfold String_from_bytes. destruct data as [| d0 data]; [discriminate |].
  cbn [index0 bind]. destruct (negb (d0 =? 4)); [discriminate |].
  apply bind_stops; [apply consume_length_stops |].
  intros [length content] _. apply bind_stops.
  - unfold decode_ascii. destruct (forallb _ content); discriminate.
  - intros text _. unfold String_init. apply bind_stops; [apply encode_length_stops |].
    intros n _. discriminate.
Qed.

Lemma Oid_decode_buffer_stops (stream : list Z) :
  forall c buffer,
    Oid.decode_buffer c stream buffer <> Fuel /\
    forall b c' s', Oid.decode_buffer c stream buffer = Ok (b, c', s') ->
                    (length s' <= length stream)%nat.
Proof.
  induction stream as [| next stream IH]; intros c buffer;
    rewrite Oid_decode_buffer_eq; destruct (c >? 127).
  - split; [discriminate | intros b c' s' H; discriminate H].
  - split; [discriminate | intros b c' s' [= _ _ <-]; lia].
  - destruct (IH next (buffer ++ [Z.lxor c 128])) as [Hstop Hlen].
    split; [exact Hstop |]. intros b c' s' H. apply Hlen in H. cbn [length]. lia.
  - split; [discriminate | intros b c' s' [= _ _ <-]; lia].
Qed.

Lemma Oid_decode_large_value_stops (c : Z) (stream : list Z) :
  Oid.decode_large_value c stream <> Fuel /\
  forall total s', Oid.decode_large_value c stream = Ok (total, s') ->
                   (length s' <= length stream)%nat.
Proof.
  unfold Oid.decode_large_value.
  destruct (Oid_decode_buffer_stops stream c []) as [Hstop Hlen].
  destruct (Oid.decode_buffer c stream []) as [[[b c'] s'] | e |]; cbn [bind].
  - split; [discriminate |]. intros total s'' [= _ <-]. apply (Hlen b c'). reflexivity.
  - split; [discriminate | intros total s'' H; discriminate H].
  - contradiction.
Qed.

Lemma Oid_from_bytes_loop_stops (fuel : nat) :
  forall remaining output,
    (length remaining <= fuel)%nat ->
    Oid.from_bytes_loop fuel remaining output <> Fuel.
Proof.
  induction fuel as [| fuel IH]; intros remaining output Hfuel.
  - destruct remaining; [discriminate | cbn [length] in Hfuel; lia].
  - destruct remaining as [| char remaining]; [discriminate |].
    cbn [length] in Hfuel. cbn [Oid.from_bytes_loop].
    destruct (char >? 127); [| apply IH; lia].
    destruct (Oid_decode_large_value_stops char remaining) as [Hstop Hlen].
    apply bind_stops; [exact Hstop |].
    intros [total s'] E. apply IH. apply Hlen in E. lia.
Qed.

Lemma Oid_extend_encoded_stops (rest : list Z) :
  forall collapsed, Oid.extend_encoded rest collapsed <> Fuel.
Proof.
  induction rest as [| sub rest IH]; intros collapsed; [discriminate |].
  cbn [Oid.extend_encoded]. apply bind_stops.
  - destruct (encode_large_value_fuel_enough sub _ (le_n _)) as [Hret _].
    intros E. rewrite E in Hret. discriminate Hret.
  - intros digits _. apply IH.
Qed.

Lemma Oid_init_stops (identifiers : list Z) : Oid.init identifiers <> Fuel.
Proof.
  unfold Oid.init. destruct identifiers as [| first [| second rest]]; try discriminate.
  apply bind_stops; [apply Oid_extend_encoded_stops |].
  intros collapsed _. apply bind_stops; [apply encode_length_stops |].
  intros n _. discriminate.
Qed.

Lemma Oid_from_bytes_stops (data : bytes) : Oid.from_bytes data <> Fuel.
Proof.
  unfold Oid.from_bytes. destruct data as [| d0 data]; [discriminate |].
  cbn [index0 bind]. destruct (negb (d0 =? Oid.HEADER)); [discriminate |].
  apply bind_stops; [apply consume_length_stops |].
  intros [length identifiers] _. apply bind_stops.
  { destruct identifiers; discriminate. }
  intros i0 _. apply bind_stops.
  - apply Oid_from_bytes_loop_stops. lia.
  - intros output _. apply Oid_init_stops.
Qed.

Section Recursion.

Variables (f g : bytes -> outcome (option obj * bytes)) (n : nat).
Hypothesis f_shrinks : shrinks_below n f.
Hypothesis f_g_agree : agree_below n f g.

Lemma List_loop_agree (fuel : nat) :
  forall content output,
    is_bytes content -> (length content < n)%nat ->
    List_loop f fuel content output = List_loop g fuel content output.
Proof.
  induction fuel as [| fuel IH]; intros content output Hbytes Hlen;
    destruct content as [| c content]; try reflexivity.
  cbn [List_loop]. rewrite <- (f_g_agree _ Hbytes Hlen).
  destruct (f_shrinks _ Hbytes Hlen) as [_ Hshrink].
  destruct (f (c :: content)) as [[[value |] rest] | e |]; cbn [bind]; try reflexivity.
  destruct (Hshrink _ _ eq_refl) as [Hrest Hshort].
  apply IH; [exact Hrest | lia].
Qed.

Lemma List_loop_stops (fuel : nat) :
  forall content output,
    is_bytes content -> (length content < n)%nat -> (length content <= fuel)%nat ->
    List_loop f fuel content output <> Fuel.
Proof.
  induction fuel as [| fuel IH]; intros content output Hbytes Hlen Hfuel;
    destruct content as [| c content]; try discriminate.
  - cbn [length] in Hfuel. lia.
  - cbn [List_loop].
    destruct (f_shrinks _ Hbytes Hlen) as [Hstop Hshrink].
    apply bind_stops; [exact Hstop |].
    intros [[value |] rest] E; [| discriminate].
    destruct (Hshrink _ _ E) as [Hrest Hshort].
    apply IH; [exact Hrest | lia | lia].
Qed.

Lemma List_from_bytes_agree (data : bytes) :
  is_bytes data -> (length data <= S n)%nat ->
  List_from_bytes_rec f data = List_from_bytes_rec g data /\
  List_from_bytes_rec f data <> Fuel.
Proof.
  intros Hbytes Hlen. unfold List_from_bytes_rec.
  destruct data as [| d0 data]; [split; [reflexivity | discriminate] |].
  cbn [index0 bind]. destruct (negb (d0 =? 48)); [split; [reflexivity | discriminate] |].
  rewrite slice_from_1_cons.
  apply Forall_inv_tail in Hbytes. cbn [length] in Hlen.
  pose proof (consume_length_is_bytes data) as Hcl.
  pose proof (consume_length_stops data) as Hstop.
  destruct (consume_length data) as [[length content] | e |]; cbn [bind];
    [| split; [reflexivity | discriminate] | contradiction].
  destruct (Hcl _ _ Hbytes eq_refl) as (Hcontent & _ & Hshort).
  rewrite (List_loop_agree _ content []) by (trivial; lia).
  split; [reflexivity |].
  rewrite <- (List_loop_agree _ content []) by (trivial; lia).
  apply bind_stops; [apply List_loop_stops; trivial; lia |].
  intros output _. discriminate.
Qed.

Lemma GetResponse_from_bytes_agree (data : bytes) :
  is_bytes data -> (length data <= S n)%nat ->
  GetResponse_from_bytes_rec f data = GetResponse_from_bytes_rec g data /\
  GetResponse_from_bytes_rec f data <> Fuel.
Proof.
  intros Hbytes Hlen. unfold GetResponse_from_bytes_rec.
  destruct data as [| d0 data]; [split; [reflexivity | discriminate] |].
  cbn [index0 bind]. destruct (negb (d0 =? 162)); [split; [reflexivity | discriminate] |].
  rewrite slice_from_1_cons.
  apply Forall_inv_tail in Hbytes. cbn [length] in Hlen.
  pose proof (consume_length_is_bytes data) as Hcl.
  pose proof (consume_length_stops data) as Hstop.
  destruct (consume_length data) as [[expected payload] | e |]; cbn [bind];
    [| split; [reflexivity | discriminate] | contradiction].
  destruct (Hcl _ _ Hbytes eq_refl) as (Hpayload & _ & Hshort).
  destruct (negb (len payload =? expected)); [split; [reflexivity | discriminate] |].
  assert (length payload < n)%nat as H0 by lia.
  rewrite <- (f_g_agree _ Hpayload H0).
  destruct (f_shrinks _ Hpayload H0) as [Hstop0 Hshrink0].
  destruct (f payload) as [[request_id d1] | e |]; cbn [bind];
    [| split; [reflexivity | discriminate] | contradiction].
  destruct (Hshrink0 _ _ eq_refl) as [Hd1 Hs1].
  assert (length d1 < n)%nat as H1 by lia.
  rewrite <- (f_g_agree _ Hd1 H1).
  destruct (f_shrinks _ Hd1 H1) as [Hstop1 Hshrink1].
  destruct (f d1) as [[error_code d2] | e |]; cbn [bind];
    [| split; [reflexivity | discriminate] | contradiction].
  destruct (Hshrink1 _ _ eq_refl) as [Hd2 Hs2].
  assert (length d2 < n)%nat as H2 by lia.
  rewrite <- (f_g_agree _ Hd2 H2).
  destruct (f_shrinks _ Hd2 H2) as [Hstop2 Hshrink2].
  destruct (f d2) as [[error_index d3] | e |]; cbn [bind];
    [| split; [reflexivity | discriminate] | contradiction].
  destruct (Hshrink2 _ _ eq_refl) as [Hd3 Hs3].
  assert (length d3 < n)%nat as H3 by lia.
  assert (value_attr_truth error_code <> Fuel) as Htruth.
  { destruct error_code as [[| | | |] |]; discriminate. }
  destruct (value_attr_truth error_code) as [[|] | e |]; cbn [bind];
    try (split; [reflexivity | discriminate]); [| contradiction].
  rewrite <- (f_g_agree _ Hd3 H3).
  destruct (f_shrinks _ Hd3 H3) as [Hstop3 _].
  destruct (f d3) as [[values d4] | e |]; cbn [bind];
    [| split; [reflexivity | discriminate] | contradiction].
  split; [reflexivity |].
  destruct (items_attr values) as [items | e |] eqn:E1; cbn [bind]; try discriminate.
  - unfold index. destruct (nth_error items 0) as [varbind |]; cbn [bind];
      [| discriminate].
    destruct varbind; cbn [items_attr bind]; try discriminate.
    destruct (nth_error items0 1); discriminate.
  - destruct values as [[| | | |] |]; discriminate E1.
Qed.

Lemma consume_body_agree (data : bytes) :
  is_bytes data -> (length data <= S n)%nat ->
  consume_body f data = consume_body g data /\
  consume_body f data <> Fuel /\
  forall v r, consume_body f data = Ok (v, r) ->
              is_bytes r /\ (length r < length data)%nat.
Proof.
  intros Hbytes Hlen. unfold consume_body.
  destruct data as [| type data];
    [split; [reflexivity | split; [discriminate | intros v r H; discriminate H]] |].
  cbn [index0 bind]. rewrite slice_from_1_cons.
  pose proof (consume_length_is_bytes data) as Hcl.
  pose proof (consume_length_stops data) as Hstop.
  destruct (consume_length data) as [[length remainder] | e |]; cbn [bind];
    [| split; [reflexivity | split; [discriminate | intros v r H; discriminate H]]
     | contradiction].
  destruct (Hcl _ _ (Forall_inv_tail Hbytes) eq_refl) as (Hremainder & _ & Hshort).
  set (chunk := slice_to (length + 2) (type :: data)).
  assert (is_bytes chunk) as Hchunk by (apply is_bytes_firstn; exact Hbytes).
  assert (List.length chunk <= S n)%nat as Hchunk_len.
  { unfold chunk, slice_to. rewrite length_firstn. lia. }
  destruct (List_from_bytes_agree chunk Hchunk Hchunk_len) as [HL HLs].
  destruct (GetResponse_from_bytes_agree chunk Hchunk Hchunk_len) as [HG HGs].
  rewrite <- HL, <- HG. split; [reflexivity |].
  assert (forall (v v' : option obj) r,
             Ok (v, slice_from length remainder) = Ok (v', r) ->
             is_bytes r /\ (List.length r < List.length (type :: data))%nat) as Hrest.
  { intros v v' r [= _ <-]. split; [apply is_bytes_skipn; exact Hremainder |].
    unfold slice_from. rewrite length_skipn. cbn [List.length]. lia. }
  pose proof (Integer_from_bytes_stops chunk) as HI.
  pose proof (String_from_bytes_stops chunk) as HS.
  pose proof (Oid_from_bytes_stops chunk) as HO.
  destruct (type =? 2).
  { destruct (Integer.from_bytes chunk); cbn [bind];
      [| split; [discriminate | intros v r H; discriminate H] | contradiction].
    split; [discriminate | intros v r H; apply (Hrest _ _ _ H)]. }
  destruct (type =? 4).
  { destruct (String_from_bytes chunk); cbn [bind];
      [| split; [discriminate | intros v r H; discriminate H] | contradiction].
    split; [discriminate | intros v r H; apply (Hrest _ _ _ H)]. }
  destruct (type =? 48).
  { destruct (List_from_bytes_rec f chunk); cbn [bind];
      [| split; [discriminate | intros v r H; discriminate H] | contradiction].
    split; [discriminate | intros v r H; apply (Hrest _ _ _ H)]. }
  destruct (type =? 5).
  { cbn [bind]. split; [discriminate | intros v r H; apply (Hrest _ _ _ H)]. }
  destruct (type =? 162).
  { destruct (GetResponse_from_bytes_rec f chunk); cbn [bind];
      [| split; [discriminate | intros v r H; discriminate H] | contradiction].
    split; [discriminate | intros v r H; apply (Hrest _ _ _ H)]. }
  destruct (type =? 6).
  { destruct (Oid.from_bytes chunk); cbn [bind];
      [| split; [discriminate | intros v r H; discriminate H] | contradiction].
    split; [discriminate | intros v r H; apply (Hrest _ _ _ H)]. }
  cbn [bind]. split; [discriminate | intros v r H; discriminate H].
Qed.

End Recursion.

Lemma consume_fuel_adequate (n : nat) :
  shrinks_below n (consume_fuel n) /\
  forall fuel, (n <= fuel)%nat -> agree_below n (consume_fuel n) (consume_fuel fuel).
Proof.
  induction n as [| n [Hshrinks Hagree]].
  - split; [intros x _ H; lia | intros fuel _ x _ H; lia].
  - split.
    + intros x Hbytes Hlen. cbn [consume_fuel].
      apply (consume_body_agree (consume_fuel n) (consume_fuel n) n Hshrinks
                                (Hagree n (le_n n)) x Hbytes).
      lia.
    + intros [| fuel] Hfuel x Hbytes Hlen; [lia |]. cbn [consume_fuel].
      apply (consume_body_agree (consume_fuel n) (consume_fuel fuel) n Hshrinks
                                (Hagree fuel ltac:(lia)) x Hbytes).
      lia.
Qed.

(** Any depth above the length of the buffer gives the same result. *)
Theorem consume_fuel_enough (data : bytes) (fuel : nat) :
  is_bytes data -> (length data < fuel)%nat ->
  consume_fuel fuel data = consume data.
Proof.
  intros Hbytes Hfuel. unfold consume. symmetry.
  apply (proj2 (consume_fuel_adequate (S (length data))) fuel); [lia | exact Hbytes | lia].
Qed.

(** On a byte buffer [consume] is never cut short: it returns or raises,
    and what it returns beside the value is a shorter byte buffer. *)
Theorem consume_total (data : bytes) :
  is_bytes data ->
  consume data <> Fuel /\
  forall v r, consume data = Ok (v, r) -> is_bytes r /\ (length r < length data)%nat.
Proof.
  intros Hbytes. unfold consume.
  apply (proj1 (consume_fuel_adequate (S (length data)))); [exact Hbytes | lia].
Qed.

Lemma consume_shrinks (n : nat) : shrinks_below n consume.
Proof. intros x Hbytes _. apply consume_total. exact Hbytes. Qed.

(** [consume] satisfies the recursive equation of the Python function:
    its body, with [consume] itself for the recursive calls. *)
Theorem consume_unfold (data : bytes) :
  is_bytes data -> consume data = consume_body consume data.
Proof.
  intros Hbytes. unfold consume at 1. cbn [consume_fuel].
  apply (consume_body_agree (consume_fuel (length data)) consume (length data)).
  - apply consume_fuel_adequate.
  - intros x Hx Hlen. apply consume_fuel_enough; assumption.
  - exact Hbytes.
  - lia.
Qed.

Lemma GetResponse_from_bytes_stops (data : bytes) :
  is_bytes data -> GetResponse_from_bytes data <> Fuel.
Proof.
  intros Hbytes.
  apply (GetResponse_from_bytes_agree consume consume (length data)
           (consume_shrinks _) (fun x _ _ => eq_refl) data Hbytes).
  lia.
Qed.

Lemma List_from_bytes_stops (data : bytes) :
  is_bytes data -> List_from_bytes data <> Fuel.
Proof.
  intros Hbytes.
  apply (List_from_bytes_agree consume consume (length data)
           (consume_shrinks _) (fun x _ _ => eq_refl) data Hbytes).
  lia.
Qed.


(** ** The decoder of [puresnmp/types.py] *)

(** [GetResponse.decode] treats the error status as [from_bytes] does. *)
Lemma Puresnmp_decode_error_status
      (pop_tlv : bytes -> outcome (option obj * bytes))
      (data d1 d2 d3 : bytes) (status : Z) (request_id error_index : option obj) :
  pop_tlv data = Ok (request_id, d1) ->
  pop_tlv d1 = Ok (Some (VInteger status), d2) ->
  pop_tlv d2 = Ok (error_index, d3) ->
  status <> 0 ->
  Puresnmp.decode pop_tlv data = Raise (SnmpError "Error packet received!").
Proof.
  intros H0 H1 H2 Hnz. unfold Puresnmp.decode.
  rewrite H0. cbn [bind]. rewrite H1. cbn [bind]. rewrite H2.
  cbn [bind value_attr_truth].
  destruct (Z.eqb_spec status 0); [contradiction | reflexivity].
Qed.

(** It also reads the first varbind only, whatever follows it in the list. *)
Lemma Puresnmp_decode_first_varbind
      (pop_tlv : bytes -> outcome (option obj * bytes))
      (data d1 d2 d3 d4 : bytes) (request_id error_index : option obj)
      (name value : obj) (more : list obj) :
  pop_tlv data = Ok (request_id, d1) ->
  pop_tlv d1 = Ok (Some (VInteger 0), d2) ->
  pop_tlv d2 = Ok (error_index, d3) ->
  pop_tlv d3 = Ok (Some (VList (VList [name; value] :: more)), d4) ->
  Puresnmp.decode pop_tlv data = Ok (Puresnmp.Make request_id name (Some value)).
Proof.
  intros H0 H1 H2 H3. unfold Puresnmp.decode.
  rewrite H0. cbn [bind]. rewrite H1. cbn [bind]. rewrite H2. cbn [bind].
  cbn [value_attr_truth Z.eqb negb bind]. rewrite H3. reflexivity.
Qed.

(** [consume] cuts the chunk it hands to the decoders after [length + 2]
    octets, as if the length field always took one octet: behind a
    long-form length the content octet is dropped and the value read is 0. *)
Example long_form_integer_decodes :
  consume long_form_integer = Ok (Some (VInteger 0), []) /\
  Integer.from_bytes long_form_integer = Ok 5.
Proof. split; reflexivity. Qed.

(** * Further properties of the codec *)

(** ** Buffers too short for a header; the NULL tag *)

(** X1: on a buffer of fewer than two octets, empty included, [consume]
    raises [IndexError]: the type octet or the length octet is missing. *)
Theorem consume_short_buffer (data : bytes) :
  (length data < 2)%nat -> consume data = Raise IndexError.
Proof.
  intros H. destruct data as [| type [| l data]]; [reflexivity | reflexivity |].
  cbn [length] in H. lia.
Qed.

Lemma consume_short_buffer_witness : consume [48] = Raise IndexError.
Proof. apply (consume_short_buffer [48]). cbn. lia. Defined.

(** X2: [Null.from_bytes] accepts exactly the buffers that start with the
    octets 0x05 0x00. *)
Theorem Null_from_bytes_accepts (data : bytes) :
  Null.from_bytes data = Ok tt <-> exists rest, data = 5 :: 0 :: rest.
Proof.
  unfold Null.from_bytes. split.
  - destruct data as [| d0 [| d1 rest]]; cbn [index0 bind]; try discriminate.
    + destruct (negb (d0 =? Null.HEADER)); discriminate.
    + destruct (Z.eqb_spec d0 Null.HEADER) as [-> | _]; [| discriminate].
      cbn [negb index nth_error bind].
      destruct (Z.eqb_spec d1 0) as [-> | _]; [| discriminate].
      intros _. exists rest. reflexivity.
  - intros [rest ->]. reflexivity.
Qed.

(** X3: [consume] does not call [Null.from_bytes]: behind the type octet
    0x05 any short-form length [l] is accepted, the value is [None] and
    [l] octets are skipped, although [Null.from_bytes] raises on the same
    buffer as soon as [l] is not 0. *)
Theorem consume_null_any_length (l : Z) (rest : bytes) :
  Z.land l 128 = 0 ->
  consume (5 :: l :: rest) = Ok (None, slice_from l rest) /\
  (l <> 0 -> raises (Null.from_bytes (5 :: l :: rest)) = true).
Proof.
  intros H. split.
  - rewrite consume_cons. unfold consume_body. cbn [index0 bind].
    rewrite slice_from_1_cons, consume_length_short by exact H. reflexivity.
  - intros Hl. unfold Null.from_bytes. cbn [index0 bind index nth_error].
    change (negb (5 =? Null.HEADER)) with false. cbn iota.
    destruct (Z.eqb_spec l 0); [contradiction | reflexivity].
Qed.

Lemma consume_null_any_length_witness :
  consume [5; 3; 1; 2; 3; 4] = Ok (None, [4]) /\
  raises (Null.from_bytes [5; 3; 1; 2; 3; 4]) = true.
Proof.
  destruct (consume_null_any_length 3 [1; 2; 3; 4] eq_refl) as [H1 H2].
  split; [exact H1 | apply H2; discriminate].
Defined.

(** ** Integer *)

(** The content octets of a non-negative integer, with the fuel that
    [Integer_to_bytes] gives to the loop. *)
Lemma Integer_octets_canonical (value : Z) :
  0 <= value ->
  exists octets,
    Integer.octets (S (Z.to_nat (Z.log2 value))) value = Ok octets /\
    is_bytes octets /\ octets <> [] /\
    int_from_bytes_big octets = value /\
    256 ^ (len octets - 1) <= Z.max value 1 /\
    value < 256 ^ len octets.
Proof.
  intros H. unfold Integer.octets.
  destruct (Z.eqb_spec value 0) as [-> | Hne].
  - exists [0]. split; [reflexivity |]. split; [repeat constructor; lia |].
    split; [discriminate |]. split; [reflexivity |]. cbn. lia.
  - assert (value < 256 ^ Z.of_nat (S (Z.to_nat (Z.log2 value)))) as Hfuel.
    { pose proof (Z.log2_spec value ltac:(lia)) as Hlog.
      pose proof (Z.log2_nonneg value) as Hnn.
      rewrite Nat2Z.inj_succ, Z2Nat.id by lia.
      assert (2 ^ Z.succ (Z.log2 value) <= 256 ^ Z.succ (Z.log2 value)).
      { apply Z.pow_le_mono_l. lia. }
      lia. }
    destruct (Integer_octets_loop_spec _ value [] (conj H Hfuel)) as
      (digits & Hloop & Hbytes & Hvalue & _ & Hlow).
    rewrite Hloop. cbn [bind app]. exists (rev digits).
    split; [reflexivity |]. split; [apply is_bytes_rev; exact Hbytes |].
    split.
    { intros E. apply (f_equal (@rev Z)) in E. rewrite rev_involutive in E.
      subst digits. cbn in Hvalue. lia. }
    split; [exact Hvalue |]. rewrite len_rev. split.
    + specialize (Hlow ltac:(lia)). lia.
    + pose proof (int_from_bytes_big_range (rev digits) (is_bytes_rev _ Hbytes)) as Hr.
      rewrite Hvalue, len_rev in Hr. lia.
Qed.

Lemma pow256_len_bound (n k : Z) : 0 <= k -> 256 ^ (n - 1) < 256 ^ k -> n <= k.
Proof.
  intros Hk H. destruct (Z_lt_le_dec k n) as [Hlt | Hle]; [| exact Hle].
  exfalso. assert (256 ^ k <= 256 ^ (n - 1)) by (apply Z.pow_le_mono_r; lia). lia.
Qed.

(** X4: for every integer [0 <= value < 256 ** 127] (at most 127 content
    octets), [bytes(Integer(value))] is defined, is a byte sequence, and
    [Integer.from_bytes] reads [value] back from it. *)
Theorem Integer_roundtrip (value : Z) :
  0 <= value < 256 ^ 127 ->
  exists data,
    Integer_to_bytes value = Ok data /\ is_bytes data /\
    Integer.from_bytes data = Ok value.
Proof.
  intros [Hnn Hlt].
  destruct (Integer_octets_canonical value Hnn) as
    (octets & Hoct & Hbytes & Hnil & Hvalue & Hlow & _).
  assert (len octets <= 127) as Hlen by (apply pow256_len_bound; lia).
  pose proof (len_nonneg octets) as Hlen0.
  assert (is_bytes (2 :: len octets :: octets)) as Hdata.
  { constructor; [lia |]. constructor; [lia | exact Hbytes]. }
  exists (2 :: len octets :: octets).
  unfold Integer_to_bytes, Integer.to_bytes. rewrite Hoct. cbn [bind app].
  split; [apply bytes_of_is_bytes; exact Hdata |]. split; [exact Hdata |].
  unfold Integer.from_bytes. cbn [index0 bind]. change (negb (2 =? Integer.HEADER)) with false.
  cbn iota. rewrite slice_from_1_cons.
  rewrite consume_length_short by (apply land_128_small; lia).
  cbn [bind]. rewrite Hvalue. reflexivity.
Qed.

Lemma Integer_roundtrip_witness :
  exists data,
    Integer_to_bytes 4294967295 = Ok data /\ is_bytes data /\
    Integer.from_bytes data = Ok 4294967295.
Proof.
  apply (Integer_roundtrip 4294967295). split; [lia |].
  apply Z.ltb_lt. vm_compute. reflexivity.
Defined.

(** X5: [bytes(Integer(value))] never returns for a negative [value]: the
    loop [while remainder] keeps a negative remainder, whatever the number
    of turns allowed. *)
Theorem Integer_to_bytes_negative (value : Z) (fuel : nat) :
  value < 0 ->
  Integer.to_bytes fuel value = Fuel /\ Integer_to_bytes value = Fuel.
Proof.
  intros H.
  assert (forall fuel, Integer.to_bytes fuel value = Fuel) as Hall.
  { intros f. unfold Integer.to_bytes, Integer.octets.
    destruct (Z.eqb_spec value 0) as [E | _]; [lia |].
    rewrite Integer_octets_negative_diverges by exact H. reflexivity. }
  split; [apply Hall | apply Hall].
Qed.

Lemma Integer_to_bytes_negative_witness :
  Integer.to_bytes 1000 (-1) = Fuel /\ Integer_to_bytes (-1) = Fuel.
Proof. apply (Integer_to_bytes_negative (-1) 1000). lia. Defined.

(** X6: an integer of 128 to 255 content octets
    ([256 ** 127 <= value < 256 ** 255]) is encoded without any error, the
    octet count going unchecked into the length octet; that octet then has
    its top bit set and [Integer.from_bytes] does not read [value] back. *)
Theorem Integer_roundtrip_breaks (value : Z) :
  256 ^ 127 <= value < 256 ^ 255 ->
  exists octets,
    Integer_to_bytes value = Ok (2 :: len octets :: octets) /\
    128 <= len octets <= 255 /\
    Integer.from_bytes (2 :: len octets :: octets) <> Ok value.
Proof.
  intros [Hge Hlt].
  assert (0 < 256 ^ 127) as Hpos by (apply Z.pow_pos_nonneg; lia).
  destruct (Integer_octets_canonical value ltac:(lia)) as
    (octets & Hoct & Hbytes & Hnil & Hvalue & Hlow & Hup).
  rewrite Z.max_l in Hlow by lia.
  assert (len octets <= 255) as Hmax by (apply pow256_len_bound; lia).
  assert (128 <= len octets) as Hmin.
  { destruct (Z_lt_le_dec (len octets) 128) as [Hs | Hs]; [| exact Hs].
    exfalso. assert (256 ^ len octets <= 256 ^ 127).
    { apply Z.pow_le_mono_r; [lia |]. lia. }
    lia. }
  exists octets. split.
  { unfold Integer_to_bytes, Integer.to_bytes. rewrite Hoct. cbn [bind app].
    apply bytes_of_is_bytes. constructor; [lia |]. constructor; [lia | exact Hbytes]. }
  split; [lia |].
  unfold Integer.from_bytes. cbn [index0 bind]. change (negb (2 =? Integer.HEADER)) with false.
  cbn iota. rewrite slice_from_1_cons.
  destruct (Z.eq_dec (len octets) 255) as [E255 | N255].
  { rewrite E255. discriminate. }
  destruct (Z.eq_dec (len octets) 128) as [E128 | N128].
  { rewrite E128. discriminate. }
  set (k := len octets - 128).
  replace (len octets) with (Z.lor 128 k) at 1
    by (rewrite Z.lor_comm, lor_128; unfold k; lia).
  rewrite consume_length_long by (unfold k; lia).
  cbn [bind]. intros [= E].
  pose proof (int_from_bytes_big_range (skipn (Z.to_nat k) octets)
                                       (is_bytes_skipn _ _ Hbytes)) as Hr.
  rewrite E in Hr.
  assert (len (skipn (Z.to_nat k) octets) <= len octets - 1) as Hshort.
  { unfold len in *. rewrite length_skipn. unfold k. lia. }
  assert (256 ^ len (skipn (Z.to_nat k) octets) <= 256 ^ (len octets - 1)).
  { apply Z.pow_le_mono_r; [lia | exact Hshort]. }
  lia.
Qed.

Lemma Integer_roundtrip_breaks_witness :
  exists octets,
    Integer_to_bytes (256 ^ 127) = Ok (2 :: len octets :: octets) /\
    128 <= len octets <= 255 /\
    Integer.from_bytes (2 :: len octets :: octets) <> Ok (256 ^ 127).
Proof.
  apply (Integer_roundtrip_breaks (256 ^ 127)). split; [lia |].
  apply Z.pow_lt_mono_r; lia.
Defined.

(** ** Object identifiers *)

(** X7: for every sub-identifier above 127, [encode_large_value] gives at
    least two octets, all with the continuation bit (128..255) but the
    last (0..127), and [decode_large_value], started on the first octet
    with the others ahead in the stream, returns the sub-identifier and
    leaves the stream where the octets end. *)
Theorem Oid_large_value_roundtrip (value : Z) (tail : list Z) :
  127 < value ->
  exists c s,
    Oid.encode_large_value value = Ok (c :: s) /\
    s <> [] /\
    Forall (fun d => 128 <= d <= 255) (removelast (c :: s)) /\
    0 <= last (c :: s) 0 <= 127 /\
    Oid.decode_large_value c (s ++ tail) = Ok (value, tail).
Proof.
  intros H.
  destruct (Oid_encode_large_value_spec value ltac:(lia)) as
    (digits & low & Henc & Hdigits & Hlow & Hsum).
  unfold base128_digit in Hlow.
  destruct (rev digits) as [| h highs] eqn:E.
  { apply (f_equal (@rev Z)) in E. rewrite rev_involutive in E. subst digits.
    cbn in Hsum. lia. }
  assert (Forall base128_digit (h :: highs)) as Hhighs.
  { rewrite <- E. apply Forall_rev. exact Hdigits. }
  exists (h + 128), (map (fun d => d + 128) highs ++ [low]).
  split; [exact Henc |].
  split; [destruct highs; discriminate |].
  split.
  { change ((h + 128) :: map (fun d => d + 128) highs ++ [low])
      with (map (fun d => d + 128) (h :: highs) ++ [low]).
    rewrite removelast_last. apply Forall_map.
    revert Hhighs. apply Forall_impl. unfold base128_digit. intros d Hd. lia. }
  split.
  { change ((h + 128) :: map (fun d => d + 128) highs ++ [low])
      with (map (fun d => d + 128) (h :: highs) ++ [low]).
    rewrite last_last. lia. }
  unfold Oid.decode_large_value.
  rewrite (Oid_decode_buffer_spec (h :: highs) low tail [] (h + 128)
             (map (fun d => d + 128) highs ++ [low]) Hhighs ltac:(lia) eq_refl).
  cbn [bind app]. unfold enumerate. rewrite <- E, rev_involutive, Oid_total_spec.
  change (128 ^ (Z.of_nat 0 + 1)) with 128. rewrite <- Hsum. reflexivity.
Qed.

Lemma Oid_large_value_roundtrip_witness :
  exists c s,
    Oid.encode_large_value 8072 = Ok (c :: s) /\
    s <> [] /\
    Forall (fun d => 128 <= d <= 255) (removelast (c :: s)) /\
    0 <= last (c :: s) 0 <= 127 /\
    Oid.decode_large_value c (s ++ [3; 2; 10]) = Ok (8072, [3; 2; 10]).
Proof. apply (Oid_large_value_roundtrip 8072 [3; 2; 10]). lia. Defined.

(** The stream is not empty and ends on an octet with the continuation bit. *)
Lemma Oid_decode_buffer_dangling (stream : list Z) :
  forall c buffer,
    last (c :: stream) 0 > 127 ->
    Oid.decode_buffer c stream buffer = Raise StopIteration \/
    exists b c' s',
      Oid.decode_buffer c stream buffer = Ok (b, c', s') /\
      s' <> [] /\ last s' 0 > 127 /\ (length s' <= length stream)%nat.
Proof.
  induction stream as [| next stream IH]; intros c buffer Hlast;
    rewrite Oid_decode_buffer_eq.
  - cbn in Hlast. destruct (Z.gtb_spec c 127); [left; reflexivity | lia].
  - change (last (c :: next :: stream) 0) with (last (next :: stream) 0) in Hlast.
    destruct (c >? 127).
    + destruct (IH next (buffer ++ [Z.lxor c 128]) Hlast) as
        [Hraise | (b & c' & s' & Hok & Hne & Hl & Hlen)].
      * left. exact Hraise.
      * right. exists b, c', s'. repeat split; try assumption. cbn [length]. lia.
    + right. exists buffer, c, (next :: stream).
      repeat split; [discriminate | exact Hlast | lia].
Qed.

Lemma Oid_from_bytes_loop_dangling (fuel : nat) :
  forall remaining output,
    remaining <> [] -> last remaining 0 > 127 ->
    (length remaining <= fuel)%nat ->
    Oid.from_bytes_loop fuel remaining output = Raise StopIteration.
Proof.
  induction fuel as [| fuel IH]; intros remaining output Hne Hlast Hfuel;
    destruct remaining as [| char remaining]; try contradiction.
  - cbn [length] in Hfuel. lia.
  - cbn [length] in Hfuel. cbn [Oid.from_bytes_loop].
    destruct (Z.gtb_spec char 127) as [Hc | Hc].
    + unfold Oid.decode_large_value.
      destruct (Oid_decode_buffer_dangling remaining char [] Hlast) as
        [-> | (b & c' & s' & -> & Hne' & Hl & Hlen)]; [reflexivity |].
      cbn [bind]. apply IH; [exact Hne' | exact Hl | lia].
    + destruct remaining as [| next remaining]; [cbn in Hlast; lia |].
      apply IH; [discriminate | exact Hlast | cbn [length] in *; lia].
Qed.

(** X8: when the content of an OBJECT IDENTIFIER ends on an octet with the
    continuation bit set (a sub-identifier cut short), [Oid.from_bytes]
    raises [StopIteration], the exception of [next(stream)], whatever the
    octets before it. *)
Theorem Oid_from_bytes_truncated (l i0 : Z) (remaining : list Z) :
  Z.land l 128 = 0 ->
  remaining <> [] -> last remaining 0 > 127 ->
  Oid.from_bytes (6 :: l :: i0 :: remaining) = Raise StopIteration.
Proof.
  intros Hl Hne Hlast. unfold Oid.from_bytes. cbn [index0 bind].
  change (negb (6 =? Oid.HEADER)) with false. cbn iota.
  rewrite slice_from_1_cons, consume_length_short by exact Hl.
  cbn [bind index0]. rewrite slice_from_1_cons.
  rewrite Oid_from_bytes_loop_dangling; [reflexivity | exact Hne | exact Hlast | lia].
Qed.

Lemma Oid_from_bytes_truncated_witness :
  Oid.from_bytes [6; 4; 43; 6; 1; 191] = Raise StopIteration.
Proof.
  apply (Oid_from_bytes_truncated 4 43 [6; 1; 191]);
    [reflexivity | discriminate | reflexivity].
Defined.

Lemma list_eqb_eq (l1 l2 : list Z) : list_eqb l1 l2 = true <-> l1 = l2.
Proof.
  unfold list_eqb. destruct (list_eq_dec Z.eq_dec l1 l2); split; intros H;
    try assumption; try reflexivity; try discriminate. contradiction.
Qed.

(** X9: [==] between two [Oid] objects built from non-negative integers
    holds exactly when the sums [40 * first + second] are equal and the
    remaining components are the same: the packing of the remaining
    components loses nothing, and the first two are only known through
    their sum (so [Oid(1, 50) == Oid(2, 10)]). *)
Theorem Oid_eq_characterised (f1 s1 f2 s2 : Z) (r1 r2 : list Z) (o1 o2 : Oid.t) :
  Forall (fun c => 0 <= c) r1 -> Forall (fun c => 0 <= c) r2 ->
  Oid.init (f1 :: s1 :: r1) = Ok o1 ->
  Oid.init (f2 :: s2 :: r2) = Ok o2 ->
  (Oid.eqb o1 o2 = true <-> 40 * f1 + s1 = 40 * f2 + s2 /\ r1 = r2).
Proof.
  intros Hr1 Hr2 H1 H2.
  destruct (Oid_pack_unpack r1 Hr1 [40 * f1 + s1]) as (p1 & He1 & _ & _ & Hd1).
  destruct (Oid_pack_unpack r2 Hr2 [40 * f2 + s2]) as (p2 & He2 & _ & _ & Hd2).
  unfold Oid.init in H1, H2. rewrite He1 in H1. rewrite He2 in H2.
  cbn [bind app] in H1, H2.
  destruct (encode_length (len ((40 * f1 + s1) :: p1))) as [n1 | |]; try discriminate H1.
  destruct (encode_length (len ((40 * f2 + s2) :: p2))) as [n2 | |]; try discriminate H2.
  cbn [bind] in H1, H2. injection H1 as <-. injection H2 as <-.
  unfold Oid.eqb. cbn [Oid.collapsed_identifiers]. rewrite list_eqb_eq. split.
  - intros [= Hfo Hp]. split; [exact Hfo |].
    pose proof (Hd1 (length r1 + length r2)%nat [] ltac:(lia)) as E1.
    pose proof (Hd2 (length r1 + length r2)%nat [] ltac:(lia)) as E2.
    rewrite Hp, E2 in E1. cbn in E1. injection E1 as E1. symmetry. exact E1.
  - intros [Hfo Hr]. subst r2. rewrite Hfo in He1.
    rewrite He1 in He2. injection He2 as He2. subst p2. f_equal. exact Hfo.
Qed.

Lemma Oid_eq_characterised_witness :
  exists o1 o2,
    Oid.init [1; 50; 8072] = Ok o1 /\ Oid.init [2; 10; 8072] = Ok o2 /\
    Oid.eqb o1 o2 = true.
Proof.
  destruct (Oid.init [1; 50; 8072]) as [o1 | |] eqn:E1; try discriminate E1.
  destruct (Oid.init [2; 10; 8072]) as [o2 | |] eqn:E2; try discriminate E2.
  exists o1, o2. split; [reflexivity |]. split; [reflexivity |].
  apply (Oid_eq_characterised 1 50 2 10 [8072] [8072] o1 o2);
    [repeat constructor; lia | repeat constructor; lia | exact E1 | exact E2 |].
  split; reflexivity.
Defined.

Lemma base128_le_nonneg (digits : list Z) :
  Forall (fun c => 0 <= c) digits -> 0 <= base128_le digits.
Proof.
  induction 1 as [| d digits Hd _ IH]; [cbn; lia |].
  cbn [base128_le fold_right]. fold (base128_le digits). lia.
Qed.

Lemma Oid_decode_buffer_nonneg (stream : list Z) :
  forall c buffer b c' s',
    is_bytes stream -> 0 <= c -> Forall (fun c => 0 <= c) buffer ->
    Oid.decode_buffer c stream buffer = Ok (b, c', s') ->
    Forall (fun c => 0 <= c) b /\ 0 <= c' /\ is_bytes s'.
Proof.
  induction stream as [| next stream IH]; intros c buffer b c' s' Hs Hc Hb;
    rewrite Oid_decode_buffer_eq; destruct (c >? 127).
  - discriminate.
  - intros [= <- <- <-]. repeat split; assumption.
  - apply IH.
    + apply Forall_inv_tail in Hs. exact Hs.
    + apply Forall_inv in Hs. lia.
    + apply Forall_app. split; [exact Hb |]. constructor; [| constructor].
      apply Z.lxor_nonneg. split; intros _; lia.
  - intros [= <- <- <-]. repeat split; assumption.
Qed.

Lemma Oid_from_bytes_loop_nonneg (fuel : nat) :
  forall remaining output result,
    is_bytes remaining -> Forall (fun c => 0 <= c) output ->
    Oid.from_bytes_loop fuel remaining output = Ok result ->
    Forall (fun c => 0 <= c) result /\ exists more, result = output ++ more.
Proof.
  induction fuel as [| fuel IH]; intros remaining output result Hr Ho;
    destruct remaining as [| char remaining]; cbn [Oid.from_bytes_loop].
  - intros [= <-]. split; [exact Ho | exists []; rewrite app_nil_r; reflexivity].
  - discriminate.
  - intros [= <-]. split; [exact Ho | exists []; rewrite app_nil_r; reflexivity].
  - pose proof (Forall_inv Hr) as Hchar. cbv beta in Hchar.
    apply Forall_inv_tail in Hr.
    destruct (char >? 127).
    + unfold Oid.decode_large_value.
      destruct (Oid.decode_buffer char remaining []) as [[[b c'] s'] | e |] eqn:E;
        cbn [bind]; try discriminate.
      destruct (Oid_decode_buffer_nonneg remaining char [] b c' s' Hr ltac:(lia)
                                         (Forall_nil _) E) as (Hb & Hc' & Hs').
      intros H. apply IH in H; [| exact Hs' |].
      * destruct H as [Hres [more ->]]. split; [exact Hres |].
        rewrite <- app_assoc. eexists. reflexivity.
      * apply Forall_app. split; [exact Ho |]. constructor; [| constructor].
        unfold enumerate. rewrite Oid_total_spec.
        pose proof (base128_le_nonneg (rev b) (Forall_rev Hb)).
        change (128 ^ (Z.of_nat 0 + 1)) with 128. lia.
    + intros H. apply IH in H; [| exact Hr |].
      * destruct H as [Hres [more ->]]. split; [exact Hres |].
        rewrite <- app_assoc. eexists. reflexivity.
      * apply Forall_app. split; [exact Ho |]. constructor; [lia | constructor].
Qed.

(** X10: every [Oid] that [Oid.from_bytes] returns on a byte buffer has
    at least two identifiers, all non-negative, the first at most 6 and
    the second below 40, and is the object that the constructor builds
    from these identifiers. *)
Theorem Oid_from_bytes_invariant (data : bytes) (o : Oid.t) :
  is_bytes data ->
  Oid.from_bytes data = Ok o ->
  exists first second rest,
    Oid.identifiers o = first :: second :: rest /\
    0 <= first <= 6 /\ 0 <= second < 40 /\
    Forall (fun c => 0 <= c) rest /\
    Oid.init (Oid.identifiers o) = Ok o.
Proof.
  intros Hdata. unfold Oid.from_bytes.
  destruct data as [| d0 data]; [discriminate |]. cbn [index0 bind].
  destruct (negb (d0 =? Oid.HEADER)); [discriminate |].
  rewrite slice_from_1_cons. apply Forall_inv_tail in Hdata.
  destruct (consume_length data) as [[l identifiers] | e |] eqn:E;
    cbn [bind]; try discriminate.
  destruct (consume_length_is_bytes data l identifiers Hdata E) as (Hids & _ & _).
  destruct identifiers as [| i0 remaining]; [discriminate |].
  cbn [index0 bind]. rewrite slice_from_1_cons.
  pose proof (Forall_inv Hids) as Hi0. cbv beta in Hi0.
  apply Forall_inv_tail in Hids.
  destruct (Oid.from_bytes_loop (length remaining) remaining [i0 / 40; i0 mod 40])
    as [output | e |] eqn:Eloop; cbn [bind]; try discriminate.
  assert (Forall (fun c => 0 <= c) [i0 / 40; i0 mod 40]) as Hstart.
  { repeat constructor; Z.div_mod_to_equations; lia. }
  destruct (Oid_from_bytes_loop_nonneg _ _ _ _ Hids Hstart Eloop) as [Hout [more ->]].
  intros Hinit. cbn [app] in Hinit, Hout.
  assert (Oid.identifiers o = i0 / 40 :: i0 mod 40 :: more) as Hident.
  { revert Hinit. unfold Oid.init.
    destruct (Oid.extend_encoded more _); cbn [bind]; try discriminate.
    destruct (encode_length _); cbn [bind]; try discriminate.
    intros [= <-]. reflexivity. }
  exists (i0 / 40), (i0 mod 40), more.
  split; [exact Hident |].
  split; [Z.div_mod_to_equations; lia |].
  split; [Z.div_mod_to_equations; lia |].
  split; [apply Forall_inv_tail in Hout; apply Forall_inv_tail in Hout; exact Hout |].
  rewrite Hident. exact Hinit.
Qed.

Lemma Oid_from_bytes_invariant_witness :
  exists o first second rest,
    Oid.from_bytes [6; 3; 200; 191; 8] = Ok o /\
    Oid.identifiers o = first :: second :: rest /\
    0 <= first <= 6 /\ 0 <= second < 40 /\
    Forall (fun c => 0 <= c) rest /\
    Oid.init (Oid.identifiers o) = Ok o.
Proof.
  destruct (Oid.from_bytes [6; 3; 200; 191; 8]) as [o | |] eqn:E; try discriminate E.
  destruct (Oid_from_bytes_invariant [6; 3; 200; 191; 8] o) as
    (first & second & rest & H); [repeat constructor; lia | exact E |].
  exists o, first, second, rest. split; [reflexivity | exact H].
Defined.

(** ** What [consume] leaves *)

(** X11: whenever [consume] returns on a byte buffer, what it leaves is
    the buffer without its first [k] octets for some [k >= 2]: a proper
    suffix, at least the type and length octets shorter. *)
Theorem consume_leaves_suffix (data : bytes) (value : option obj) (rest : bytes) :
  is_bytes data ->
  consume data = Ok (value, rest) ->
  exists k, (2 <= k)%nat /\ rest = skipn k data.
Proof.
  intros Hdata. rewrite (consume_unfold data Hdata). unfold consume_body.
  destruct data as [| type data]; [discriminate |]. cbn [index0 bind].
  rewrite slice_from_1_cons. apply Forall_inv_tail in Hdata.
  destruct (consume_length data) as [[l remainder] | e |] eqn:E;
    cbn [bind]; try discriminate.
  destruct (consume_length_suffix data l remainder Hdata E) as [k ->].
  match goal with
  | |- bind ?m _ = _ -> _ => destruct m as [v | e |]; cbn [bind]; try discriminate
  end.
  intros [= _ <-]. exists (Z.to_nat l + S (S k))%nat. split; [lia |].
  unfold slice_from.
  rewrite <- (skipn_skipn (Z.to_nat l) (S (S k)) (type :: data)). reflexivity.
Qed.

Lemma consume_leaves_suffix_witness :
  exists k, (2 <= k)%nat /\ [9; 9] = skipn k [2; 1; 5; 9; 9].
Proof.
  apply (consume_leaves_suffix [2; 1; 5; 9; 9] (Some (VInteger 5)) [9; 9]);
    [repeat constructor; lia | reflexivity].
Defined.

(** ** Strings *)

Lemma bytes_of_inv (l : list Z) (data : bytes) :
  bytes_of l = Ok data -> data = l /\ is_bytes l.
Proof.
  unfold bytes_of. destruct (forallb is_byte l) eqn:E; [| discriminate].
  intros [= <-]. split; [reflexivity |].
  unfold is_bytes. apply Forall_forall. intros b Hb.
  rewrite forallb_forall in E. specialize (E b Hb). unfold is_byte in E.
  apply andb_prop in E as [E1 E2]. apply Z.leb_le in E1. apply Z.ltb_lt in E2. lia.
Qed.

Lemma encode_length_inv (n m : Z) :
  encode_length n = Ok m -> m = n /\ Z.testbit n 7 = false.
Proof.
  unfold encode_length. rewrite land_128.
  destruct (Z.testbit n 7); [discriminate |]. intros [= <-]. split; reflexivity.
Qed.

(** A length that [encode_length] lets through and that fits one octet
    is below 128. *)
Lemma short_length (n m : Z) :
  encode_length n = Ok m -> 0 <= n < 256 -> m = n /\ 0 <= n < 128.
Proof.
  intros H Hn. apply encode_length_inv in H as [-> Hbit]. split; [reflexivity |].
  rewrite testbit_7, Z.mod_small in Hbit by lia. apply Z.leb_gt in Hbit. lia.
Qed.

Lemma length_list_ascii_of_string (s : string) :
  length (list_ascii_of_string s) = String.length s.
Proof. induction s as [| c s IH]; [reflexivity | cbn; rewrite IH; reflexivity]. Qed.

Lemma encode_ascii_inv (value : string) (text : bytes) :
  encode_ascii value = Ok text ->
  is_bytes text /\ len text = Z.of_nat (String.length value) /\
  decode_ascii text = Ok value.
Proof.
  unfold encode_ascii.
  set (codes := map (fun c => Z.of_N (N_of_ascii c)) (list_ascii_of_string value)).
  destruct (forallb (fun b => b <? 128) codes) eqn:E; [| discriminate].
  intros [= <-]. split; [| split].
  - unfold is_bytes. apply Forall_forall. intros b Hb.
    rewrite forallb_forall in E. specialize (E b Hb). apply Z.ltb_lt in E.
    unfold codes in Hb. apply in_map_iff in Hb as (c & <- & _). lia.
  - unfold len, codes. rewrite length_map, length_list_ascii_of_string. reflexivity.
  - unfold decode_ascii. rewrite E. f_equal. unfold codes. rewrite map_map.
    rewrite <- (string_of_list_ascii_of_string value) at 2. f_equal.
    rewrite <- (map_id (list_ascii_of_string value)) at 2.
    apply map_ext. intros c. rewrite N2Z.id. apply ascii_N_embedding.
Qed.

(** Encoding a [String] and reading the bytes back. *)
Lemma String_to_bytes_from_bytes (value : string) (o : obj) (data : bytes) :
  String_init value = Ok o ->
  obj_to_bytes o = Ok data ->
  exists text,
    encode_ascii value = Ok text /\
    data = 4 :: Z.of_nat (String.length value) :: text /\
    Z.of_nat (String.length value) < 128 /\
    String_from_bytes data = Ok o.
Proof.
  intros Hinit. pose proof Hinit as Hinit'. revert Hinit'. unfold String_init at 1.
  destruct (encode_length (Z.of_nat (String.length value))) as [l | |] eqn:El;
    cbn [bind]; try discriminate.
  intros [= <-]. cbn [obj_to_bytes]. unfold String_to_bytes.
  destruct (bytes_of [4; l]) as [header | |] eqn:Eh; cbn [bind]; try discriminate.
  destruct (encode_ascii value) as [text | |] eqn:Et; cbn [bind]; try discriminate.
  intros [= <-].
  apply bytes_of_inv in Eh as [-> Hh].
  apply Forall_inv_tail in Hh. apply Forall_inv in Hh.
  assert (0 <= Z.of_nat (String.length value) < 256) as Hrange.
  { apply encode_length_inv in El as [<- _]. exact Hh. }
  destruct (short_length _ _ El Hrange) as [-> Hshort].
  destruct (encode_ascii_inv value text Et) as (_ & _ & Hdec).
  exists text. split; [reflexivity |]. split; [reflexivity |]. split; [lia |].
  unfold String_from_bytes. cbn [app index0 bind]. change (negb (4 =? 4)) with false.
  cbn iota. rewrite slice_from_1_cons.
  rewrite consume_length_short by (apply land_128_small; lia).
  cbn [bind]. rewrite Hdec. cbn [bind]. exact Hinit.
Qed.

(** X12: whenever the constructor [String] accepts [value] and
    [__bytes__] succeeds on the object (an ASCII string of fewer than 128
    characters), the bytes are the tag 0x04, the number of characters and
    the character codes, and [String.from_bytes] returns the object. *)
Theorem String_roundtrip (value : string) (o : obj) (data : bytes) :
  String_init value = Ok o ->
  obj_to_bytes o = Ok data ->
  exists text,
    encode_ascii value = Ok text /\
    data = 4 :: Z.of_nat (String.length value) :: text /\
    Z.of_nat (String.length value) < 128 /\
    String_from_bytes data = Ok o.
Proof. apply String_to_bytes_from_bytes. Qed.

Lemma String_roundtrip_witness :
  exists text,
    encode_ascii "public" = Ok text /\
    [4; 6; 112; 117; 98; 108; 105; 99] = 4 :: Z.of_nat (String.length "public") :: text /\
    Z.of_nat (String.length "public") < 128 /\
    String_from_bytes [4; 6; 112; 117; 98; 108; 105; 99] = Ok (VString "public" 6).
Proof.
  apply (String_roundtrip "public" (VString "public" 6)
                          [4; 6; 112; 117; 98; 108; 105; 99]); reflexivity.
Defined.

(** X13: [String.from_bytes] decodes the content as ASCII: on a buffer
    whose content holds an octet above 127 it raises [UnicodeDecodeError],
    whatever the other octets. *)
Theorem String_from_bytes_not_ascii (l : Z) (content : bytes) (b : Z) :
  Z.land l 128 = 0 -> In b content -> 128 <= b ->
  String_from_bytes (4 :: l :: content) = Raise UnicodeDecodeError.
Proof.
  intros Hl Hin Hb.
  unfold String_from_bytes. cbn [index0 bind]. change (negb (4 =? 4)) with false.
  cbn iota. rewrite slice_from_1_cons, consume_length_short by exact Hl.
  cbn [bind]. unfold decode_ascii.
  destruct (forallb (fun b => b <? 128) content) eqn:E; [| reflexivity].
  rewrite forallb_forall in E. specialize (E b Hin). apply Z.ltb_lt in E. lia.
Qed.

Lemma String_from_bytes_not_ascii_witness :
  String_from_bytes [4; 3; 104; 233; 105] = Raise UnicodeDecodeError.
Proof.
  apply (String_from_bytes_not_ascii 3 [104; 233; 105] 233);
    [reflexivity | right; left; reflexivity | lia].
Defined.

(** ** Encoding an object and reading it back *)

Lemma obj_induction (P : obj -> Prop) :
  (forall value, P (VInteger value)) ->
  (forall value length, P (VString value length)) ->
  (forall items, Forall P items -> P (VList items)) ->
  (forall o, P (VOid o)) ->
  (forall request_id value, P (VGetResponse request_id value)) ->
  forall o, P o.
Proof.
  intros HI HS HL HO HG.
  fix IH 1. intros [value | value length | items | o | request_id value].
  - apply HI.
  - apply HS.
  - apply HL. induction items as [| item items IHitems]; constructor.
    + apply IH.
    + exact IHitems.
  - apply HO.
  - apply HG.
Qed.

Lemma obj_to_bytes_list (items : list obj) :
  obj_to_bytes (VList items)
  = (encoded <- each_to_bytes items ;; List_to_bytes encoded).
Proof. reflexivity. Qed.

Lemma constructed_list (items : list obj) :
  constructed (VList items) <-> Forall constructed items.
Proof.
  cbn [constructed]. induction items as [| item items IH].
  - split; [constructor | trivial].
  - split.
    + intros [H1 H2]. constructor; [exact H1 | apply IH; exact H2].
    + intros H. split; [exact (Forall_inv H) | apply IH; exact (Forall_inv_tail H)].
Qed.

Lemma obj_eqb_list (xs ys : list obj) :
  obj_eqb (VList xs) (VList ys) = items_eqb xs ys.
Proof. reflexivity. Qed.

Lemma firstn_length_app {A : Type} (l r : list A) : firstn (length l) (l ++ r) = l.
Proof. induction l as [| a l IH]; [reflexivity | cbn; rewrite IH; reflexivity]. Qed.

Lemma skipn_length_app {A : Type} (l r : list A) : skipn (length l) (l ++ r) = r.
Proof. induction l as [| a l IH]; [reflexivity | cbn; exact IH]. Qed.

(** The chunk that [consume] cuts out when the length octet is the true
    number of content octets, and what it leaves. *)
Lemma slice_to_tlv (t : Z) (content rest : bytes) :
  slice_to (len content + 2) (t :: len content :: content ++ rest)
  = t :: len content :: content.
Proof.
  unfold slice_to, len.
  replace (Z.to_nat (Z.of_nat (length content) + 2)) with (S (S (length content))) by lia.
  cbn [firstn]. rewrite firstn_length_app. reflexivity.
Qed.

Lemma slice_from_content (content rest : bytes) :
  slice_from (len content) (content ++ rest) = rest.
Proof. unfold slice_from, len. rewrite Nat2Z.id. apply skipn_length_app. Qed.

(** One step of [consume] on a TLV with a short-form length octet that is
    the true number of content octets: the chunk is the TLV and the rest
    is left. *)
Lemma consume_body_tlv (f : bytes -> outcome (option obj * bytes))
      (type : Z) (content rest : bytes) :
  len content < 128 ->
  consume_body f (type :: len content :: content ++ rest)
  = (let chunk := type :: len content :: content in
     value <-
       (if type =? 2 then
          n <- Integer.from_bytes chunk ;; Ok (Some (VInteger n))
        else if type =? 4 then
          v <- String_from_bytes chunk ;; Ok (Some v)
        else if type =? 48 then
          v <- List_from_bytes_rec f chunk ;; Ok (Some v)
        else if type =? 5 then
          Ok None
        else if type =? 162 then
          v <- GetResponse_from_bytes_rec f chunk ;; Ok (Some v)
        else if type =? 6 then
          o <- Oid.from_bytes chunk ;; Ok (Some (VOid o))
        else
          Raise (ValueError ("Unknown type header: 0x" ++ hex02 type)%string)) ;;
     Ok (value, rest)).
Proof.
  intros Hlen. pose proof (len_nonneg content) as Hnn.
  unfold consume_body. cbn [index0 bind]. rewrite slice_from_1_cons.
  rewrite consume_length_short by (apply land_128_small; lia).
  cbn [bind]. rewrite slice_to_tlv, slice_from_content. reflexivity.
Qed.

Lemma consume_tlv (type : Z) (content rest : bytes) :
  is_bytes (type :: len content :: content) -> is_bytes rest ->
  len content < 128 ->
  consume (type :: len content :: content ++ rest)
  = consume_body consume (type :: len content :: content ++ rest).
Proof.
  intros Hchunk Hrest _. apply consume_unfold.
  change (is_bytes ((type :: len content :: content) ++ rest)).
  apply is_bytes_app; assumption.
Qed.

(** Encoding an [Oid] built from non-negative integers and reading the
    bytes back. *)
Lemma Oid_to_bytes_from_bytes (identifiers : list Z) (o : Oid.t) (data : bytes) :
  Forall (fun c => 0 <= c) identifiers ->
  Oid.init identifiers = Ok o ->
  Oid.to_bytes o = Ok data ->
  data = 6 :: len (Oid.collapsed_identifiers o) :: Oid.collapsed_identifiers o /\
  is_bytes data /\
  len (Oid.collapsed_identifiers o) < 128 /\
  exists o', Oid.from_bytes data = Ok o' /\ Oid.eqb o' o = true.
Proof.
  intros Hids Hinit Hto.
  destruct identifiers as [| first [| second rest]]; try discriminate Hinit.
  apply Forall_inv_tail in Hids. apply Forall_inv_tail in Hids.
  destruct (Oid_pack_unpack rest Hids [40 * first + second]) as
    (packed & Hext & _ & Hlen & Hloop).
  set (first_output := 40 * first + second) in *.
  unfold Oid.init in Hinit. fold first_output in Hinit. rewrite Hext in Hinit.
  cbn [bind app] in Hinit, Hext.
  destruct (encode_length (len (first_output :: packed))) as [n | |] eqn:En;
    try discriminate Hinit.
  cbn [bind] in Hinit. injection Hinit as <-.
  unfold Oid.to_bytes in Hto. cbn [Oid.length Oid.collapsed_identifiers app] in Hto |- *.
  apply bytes_of_inv in Hto as [-> Hbytes].
  pose proof (Forall_inv (Forall_inv_tail Hbytes)) as Hn. cbv beta in Hn.
  pose proof (Forall_inv (Forall_inv_tail (Forall_inv_tail Hbytes))) as Hfo.
  cbv beta in Hfo.
  assert (0 <= len (first_output :: packed) < 256) as Hrange.
  { apply encode_length_inv in En as [<- _]. exact Hn. }
  destruct (short_length _ _ En Hrange) as [-> Hshort].
  split; [reflexivity |]. split; [exact Hbytes |]. split; [lia |].
  assert (Oid.extend_encoded rest [40 * (first_output / 40) + first_output mod 40]
          = Ok (first_output :: packed)) as Hext'.
  { rewrite <- (Z.div_mod first_output 40) by lia. exact Hext. }
  exists (Oid.Make (first_output / 40 :: first_output mod 40 :: rest)
                   (first_output :: packed) (len (first_output :: packed))).
  split; [| apply list_eqb_refl].
  unfold Oid.from_bytes. cbn [index0 bind]. change (negb (6 =? Oid.HEADER)) with false.
  cbn iota. rewrite slice_from_1_cons.
  rewrite consume_length_short by (apply land_128_small; lia).
  cbn [bind index0]. rewrite slice_from_1_cons.
  rewrite Hloop by exact Hlen. cbn [bind app].
  unfold Oid.init. rewrite Hext'. cbn [bind]. rewrite En. reflexivity.
Qed.

Lemma List_loop_nil (f : bytes -> outcome (option obj * bytes)) (fuel : nat)
      (output : list obj) :
  List_loop f fuel [] output = Ok output.
Proof. destruct fuel; reflexivity. Qed.

(** The loop of [List.from_bytes] on the bytes of items that read back,
    in front of any other bytes: it takes one turn per item and goes on
    with the other bytes. *)
Lemma List_loop_reads_back (items : list obj) :
  Forall reads_back items ->
  forall encoded,
    each_to_bytes items = Ok encoded ->
    is_bytes (concat encoded) /\
    (2 * length items <= length (concat encoded))%nat /\
    forall tail fuel acc,
      is_bytes tail -> (length items <= fuel)%nat ->
      exists items',
        List_loop consume fuel (concat encoded ++ tail) acc
        = List_loop consume (fuel - length items) tail (acc ++ items') /\
        items_eqb items' items = true.
Proof.
  induction 1 as [| o items Ho _ IH]; intros encoded Henc.
  - cbn in Henc. injection Henc as <-. cbn [concat length app].
    split; [constructor |]. split; [lia |].
    intros tail fuel acc _ _. exists [].
    rewrite Nat.sub_0_r, app_nil_r. split; reflexivity.
  - cbn [each_to_bytes] in Henc.
    destruct (obj_to_bytes o) as [b | |] eqn:Eb; cbn [bind] in Henc; try discriminate.
    destruct (each_to_bytes items) as [bs | |] eqn:Ebs; cbn [bind] in Henc;
      try discriminate.
    injection Henc as <-.
    destruct (Ho b Eb) as (Hb & Hlen & Hread).
    destruct (IH bs eq_refl) as (Hbs & Hlens & Hloop).
    cbn [concat length].
    split; [apply is_bytes_app; assumption |].
    split; [rewrite length_app; lia |].
    intros tail fuel acc Htail Hfuel.
    destruct fuel as [| fuel]; [lia |].
    destruct (Hread (concat bs ++ tail) (is_bytes_app _ _ Hbs Htail)) as
      (o' & Hconsume & Heq).
    destruct (Hloop tail fuel (acc ++ [o']) Htail ltac:(lia)) as (items' & Hrest & Heqs).
    exists (o' :: items').
    rewrite <- app_assoc.
    destruct b as [| x b]; [cbn [length] in Hlen; lia |].
    cbn [app List_loop] in *. rewrite Hconsume. cbn [bind].
    rewrite Hrest, <- app_assoc. cbn [app items_eqb Nat.sub].
    split; [reflexivity |]. rewrite Heq, Heqs. reflexivity.
Qed.

(** Every constructed object reads back. *)
Lemma constructed_reads_back (o : obj) : constructed o -> reads_back o.
Proof.
  induction o as [value | value length | items IH | o | request_id value]
    using obj_induction; intros Hwf data Hdata.
  - (* Integer *)
    cbn [constructed] in Hwf. destruct Hwf as [Hnn Hlt].
    destruct (Integer_octets_canonical value Hnn) as
      (octets & Hoct & Hbytes & Hnil & Hvalue & Hlow & _).
    assert (len octets <= 127) as Hlen by (apply pow256_len_bound; lia).
    pose proof (len_nonneg octets) as Hlen0.
    cbn [obj_to_bytes] in Hdata. unfold Integer_to_bytes, Integer.to_bytes in Hdata.
    rewrite Hoct in Hdata. cbn [bind app] in Hdata.
    apply bytes_of_inv in Hdata as [-> Hchunk].
    split; [exact Hchunk |]. split; [cbn [length]; lia |].
    intros rest Hrest. exists (VInteger value). cbn [app].
    rewrite consume_tlv, consume_body_tlv by (trivial; lia).
    cbv zeta. change (Integer.HEADER =? 2) with true. cbn iota.
    unfold Integer.from_bytes. cbn [index0 bind].
    change (negb (Integer.HEADER =? Integer.HEADER)) with false. cbn iota.
    rewrite slice_from_1_cons, consume_length_short by (apply land_128_small; lia).
    cbn [bind]. rewrite Hvalue. split; [reflexivity |]. cbn [obj_eqb]. apply Z.eqb_refl.
  - (* String *)
    cbn [constructed] in Hwf.
    destruct (String_to_bytes_from_bytes value _ data Hwf Hdata) as
      (text & Htext & -> & Hlen & Hfrom).
    destruct (encode_ascii_inv value text Htext) as (Hbytes & Hlentext & _).
    rewrite <- Hlentext in *.
    pose proof (len_nonneg text) as Hlen0.
    assert (is_bytes (4 :: len text :: text)) as Hchunk.
    { constructor; [lia |]. constructor; [lia | exact Hbytes]. }
    split; [exact Hchunk |]. split; [cbn [List.length]; lia |].
    intros rest Hrest. exists (VString value length). cbn [app].
    rewrite consume_tlv, consume_body_tlv by (trivial; lia).
    cbv zeta. change (4 =? 2) with false. change (4 =? 4) with true. cbn iota.
    rewrite Hfrom. cbn [bind]. split; [reflexivity |]. cbn [obj_eqb].
    apply String.eqb_refl.
  - (* List *)
    apply constructed_list in Hwf.
    assert (Forall reads_back items) as Hitems.
    { rewrite Forall_forall in *. intros item Hin. apply IH; [exact Hin |].
      apply Hwf. exact Hin. }
    rewrite obj_to_bytes_list in Hdata.
    destruct (each_to_bytes items) as [encoded | |] eqn:Eenc; cbn [bind] in Hdata;
      try discriminate.
    destruct (List_loop_reads_back items Hitems encoded Eenc) as
      (Hbytes & Hlens & Hloop).
    unfold List_to_bytes in Hdata.
    destruct (encode_length (len (concat encoded))) as [n | |] eqn:En;
      cbn [bind] in Hdata; try discriminate.
    destruct (bytes_of [48; n]) as [header | |] eqn:Eh; cbn [bind] in Hdata;
      try discriminate.
    injection Hdata as <-.
    apply bytes_of_inv in Eh as [-> Hh].
    pose proof (Forall_inv (Forall_inv_tail Hh)) as Hn. cbv beta in Hn.
    assert (0 <= len (concat encoded) < 256) as Hrange.
    { apply encode_length_inv in En as [<- _]. exact Hn. }
    destruct (short_length _ _ En Hrange) as [-> Hshort].
    assert (is_bytes (48 :: len (concat encoded) :: concat encoded)) as Hchunk.
    { constructor; [lia |]. constructor; [lia | exact Hbytes]. }
    cbn [app]. split; [exact Hchunk |]. split; [cbn [length]; lia |].
    intros rest Hrest.
    destruct (Hloop [] (length (concat encoded)) [] (Forall_nil _) ltac:(lia)) as
      (items' & Hrun & Heq).
    rewrite app_nil_r, List_loop_nil in Hrun. cbn [app] in Hrun.
    exists (VList items').
    rewrite consume_tlv, consume_body_tlv by (trivial; lia).
    cbv zeta. change (48 =? 2) with false. change (48 =? 4) with false.
    change (48 =? 48) with true. cbn iota.
    unfold List_from_bytes_rec. cbn [index0 bind]. change (negb (48 =? 48)) with false.
    cbn iota. rewrite slice_from_1_cons.
    rewrite consume_length_short by (apply land_128_small; lia).
    cbn [bind]. rewrite Hrun. cbn [bind].
    split; [reflexivity |]. rewrite obj_eqb_list. exact Heq.
  - (* Oid *)
    cbn [constructed] in Hwf. destruct Hwf as (identifiers & Hids & Hinit).
    cbn [obj_to_bytes] in Hdata.
    destruct (Oid_to_bytes_from_bytes identifiers o data Hids Hinit Hdata) as
      (-> & Hchunk & Hlen & o' & Hfrom & Heq).
    split; [exact Hchunk |]. split; [cbn [length]; lia |].
    intros rest Hrest. exists (VOid o'). cbn [app].
    rewrite consume_tlv, consume_body_tlv by (trivial; lia).
    cbv zeta. change (6 =? 2) with false. change (6 =? 4) with false.
    change (6 =? 48) with false. change (6 =? 5) with false.
    change (6 =? 162) with false. change (6 =? 6) with true. cbn iota.
    rewrite Hfrom. cbn [bind]. split; [reflexivity | exact Heq].
  - (* GetResponse *)
    contradiction Hwf.
Qed.

(** X14: every object built by the constructors from non-negative
    integers (of at most 127 octets) and strings, nested lists included,
    whose [__bytes__] succeeds, is read back by [consume]: on the bytes
    followed by any other bytes, [consume] returns an object equal ([==])
    to the original and leaves exactly the other bytes. *)
Theorem consume_obj_roundtrip (o : obj) (data rest : bytes) :
  constructed o ->
  obj_to_bytes o = Ok data ->
  is_bytes rest ->
  exists o', consume (data ++ rest) = Ok (Some o', rest) /\ obj_eqb o' o = true.
Proof.
  intros Hwf Hdata Hrest.
  destruct (constructed_reads_back o Hwf data Hdata) as (_ & _ & H).
  apply H. exact Hrest.
Qed.

Lemma small_below_pow256 (value : Z) : value < 256 -> value < 256 ^ 127.
Proof.
  intros H. assert (256 ^ 1 <= 256 ^ 127) by (apply Z.pow_le_mono_r; lia). lia.
Qed.

Lemma consume_obj_roundtrip_witness :
  exists o',
    consume ([48; 9; 2; 1; 5; 4; 2; 104; 105; 48; 0] ++ [9; 9])
    = Ok (Some o', [9; 9]) /\
    obj_eqb o' (VList [VInteger 5; VString "hi" 2; VList []]) = true.
Proof.
  apply (consume_obj_roundtrip (VList [VInteger 5; VString "hi" 2; VList []])).
  - cbn. split; [split; [lia | apply small_below_pow256; lia] |].
    split; [reflexivity |]. split; exact I.
  - reflexivity.
  - repeat constructor; lia.
Defined.

Lemma consume_null_skip (l : Z) (rest : bytes) :
  Z.land l 128 = 0 -> consume (5 :: l :: rest) = Ok (None, slice_from l rest).
Proof.
  intros H. rewrite consume_cons. unfold consume_body. cbn [index0 bind].
  rewrite slice_from_1_cons, consume_length_short by exact H. reflexivity.
Qed.

(** X15: [List.from_bytes] stops at the first NULL element: when the
    content is the bytes of constructed items followed by a NULL (tag
    0x05, any short length) and anything else, the list returned holds
    the items before the NULL only; the NULL and all that follows are
    dropped without an error, whatever the length octet of the list. *)
Theorem List_from_bytes_stops_at_null
        (items : list obj) (encoded : list bytes) (n l : Z) (junk : bytes) :
  Forall constructed items ->
  each_to_bytes items = Ok encoded ->
  Z.land n 128 = 0 -> 0 <= l < 128 -> is_bytes junk ->
  exists items',
    List_from_bytes (48 :: n :: concat encoded ++ 5 :: l :: junk) = Ok (VList items') /\
    items_eqb items' items = true.
Proof.
  intros Hwf Henc Hn Hl Hjunk.
  assert (Forall reads_back items) as Hitems.
  { revert Hwf. apply Forall_impl. apply constructed_reads_back. }
  destruct (List_loop_reads_back items Hitems encoded Henc) as (_ & Hlens & Hloop).
  assert (is_bytes (5 :: l :: junk)) as Htail.
  { constructor; [lia |]. constructor; [lia | exact Hjunk]. }
  set (total := length (concat encoded ++ 5 :: l :: junk)).
  assert (length items < total)%nat as Htotal.
  { unfold total. rewrite length_app. cbn [length]. lia. }
  destruct (Hloop (5 :: l :: junk) total [] Htail ltac:(lia)) as (items' & Hrun & Heq).
  exists items'. split; [| exact Heq].
  unfold List_from_bytes, List_from_bytes_rec. cbn [index0 bind].
  change (negb (48 =? 48)) with false. cbn iota.
  rewrite slice_from_1_cons, consume_length_short by exact Hn.
  cbn [bind]. fold total. rewrite Hrun. cbn [app].
  destruct (total - length items)%nat as [| fuel] eqn:E; [lia |].
  cbn [List_loop]. rewrite consume_null_skip by (apply land_128_small; lia).
  reflexivity.
Qed.

Lemma List_from_bytes_stops_at_null_witness :
  exists items',
    List_from_bytes (48 :: 10 :: concat [[2; 1; 7]] ++ 5 :: 0 :: [2; 1; 8])
    = Ok (VList items') /\
    items_eqb items' [VInteger 7] = true.
Proof.
  apply (List_from_bytes_stops_at_null [VInteger 7] [[2; 1; 7]] 10 0 [2; 1; 8]).
  - constructor; [| constructor]. cbn. split; [lia | apply small_below_pow256; lia].
  - reflexivity.
  - reflexivity.
  - lia.
  - repeat constructor; lia.
Defined.

(** ** Requests and responses *)

Lemma obj_eqb_list_inv (o : obj) (ys : list obj) :
  obj_eqb o (VList ys) = true -> exists xs, o = VList xs /\ items_eqb xs ys = true.
Proof.
  destruct o as [v | s l | xs | oid | r v]; try discriminate.
  rewrite obj_eqb_list. intros H. exists xs. split; [reflexivity | exact H].
Qed.

Lemma items_eqb_cons_inv (xs : list obj) (y : obj) (ys : list obj) :
  items_eqb xs (y :: ys) = true ->
  exists x xs', xs = x :: xs' /\ obj_eqb x y = true /\ items_eqb xs' ys = true.
Proof.
  destruct xs as [| x xs]; [discriminate |]. cbn [items_eqb].
  intros H. apply andb_prop in H as [H1 H2]. exists x, xs. repeat split; assumption.
Qed.

Lemma items_eqb_nil_inv (xs : list obj) : items_eqb xs [] = true -> xs = [].
Proof. destruct xs; [reflexivity | discriminate]. Qed.

Lemma obj_eqb_integer_inv (o : obj) (value : Z) :
  obj_eqb o (VInteger value) = true -> o = VInteger value.
Proof.
  destruct o as [v | s l | xs | oid | r v]; try discriminate.
  cbn [obj_eqb]. intros H. apply Z.eqb_eq in H. subst. reflexivity.
Qed.

(** X16: a response built as an agent builds it, from the bytes of a
    request id, the status [Integer(0)], an error index and the varbind
    list [List(List(name, value))] (all constructed objects, fewer than
    128 octets in all) behind the tag 0xa2 and their number, is decoded
    by [GetResponse.from_bytes] to the request id and the value of the
    varbind. *)
Theorem GetResponse_from_bytes_wellformed
        (request_id error_index name value : obj) (b1 b3 b4 : bytes) :
  constructed request_id -> constructed error_index ->
  constructed name -> constructed value ->
  obj_to_bytes request_id = Ok b1 ->
  obj_to_bytes error_index = Ok b3 ->
  obj_to_bytes (VList [VList [name; value]]) = Ok b4 ->
  len (b1 ++ [2; 1; 0] ++ b3 ++ b4) < 128 ->
  exists request_id' value',
    GetResponse_from_bytes
      (162 :: len (b1 ++ [2; 1; 0] ++ b3 ++ b4) :: b1 ++ [2; 1; 0] ++ b3 ++ b4)
    = Ok (VGetResponse (Some request_id') value') /\
    obj_eqb request_id' request_id = true /\
    obj_eqb value' value = true.
Proof.
  intros Hw1 Hw3 Hwn Hwv Hb1 Hb3 Hb4 Hlen.
  assert (constructed (VList [VList [name; value]])) as Hw4.
  { cbn. tauto. }
  assert (constructed (VInteger 0)) as Hw2.
  { cbn. split; [lia | apply small_below_pow256; lia]. }
  destruct (constructed_reads_back _ Hw1 b1 Hb1) as (_ & _ & Hread1).
  destruct (constructed_reads_back _ Hw2 [2; 1; 0] eq_refl) as (Hbytes2 & _ & Hread2).
  destruct (constructed_reads_back _ Hw3 b3 Hb3) as (Hbytes3 & _ & Hread3).
  destruct (constructed_reads_back _ Hw4 b4 Hb4) as (Hbytes4 & _ & Hread4).
  destruct (Hread1 ([2; 1; 0] ++ b3 ++ b4)) as (r1 & Hc1 & He1).
  { apply is_bytes_app; [exact Hbytes2 | apply is_bytes_app; assumption]. }
  destruct (Hread2 (b3 ++ b4) (is_bytes_app _ _ Hbytes3 Hbytes4)) as (r2 & Hc2 & He2).
  destruct (Hread3 b4 Hbytes4) as (r3 & Hc3 & He3).
  destruct (Hread4 [] (Forall_nil _)) as (r4 & Hc4 & He4).
  rewrite app_nil_r in Hc4.
  apply obj_eqb_integer_inv in He2. subst r2.
  apply obj_eqb_list_inv in He4 as (xs & -> & He4).
  apply items_eqb_cons_inv in He4 as (x & xs' & -> & Hx & Hnil).
  apply items_eqb_nil_inv in Hnil. subst xs'.
  apply obj_eqb_list_inv in Hx as (pair & -> & Hpair).
  apply items_eqb_cons_inv in Hpair as (name' & pair' & -> & _ & Hpair).
  apply items_eqb_cons_inv in Hpair as (value' & pair'' & -> & Hvalue & Hnil).
  apply items_eqb_nil_inv in Hnil. subst pair''.
  exists r1, value'. split; [| split; assumption].
  pose proof (len_nonneg (b1 ++ [2; 1; 0] ++ b3 ++ b4)) as Hnn.
  unfold GetResponse_from_bytes, GetResponse_from_bytes_rec. cbn [index0 bind].
  change (negb (162 =? 162)) with false. cbn iota.
  rewrite slice_from_1_cons, consume_length_short by (apply land_128_small; lia).
  cbn [bind]. rewrite Z.eqb_refl. cbn [negb].
  rewrite Hc1. cbn [bind]. rewrite Hc2. cbn [bind]. rewrite Hc3. cbn [bind].
  cbn [value_attr_truth Z.eqb negb bind]. rewrite Hc4. reflexivity.
Qed.

Lemma GetResponse_from_bytes_wellformed_witness :
  exists request_id' value',
    GetResponse_from_bytes
      (162 :: len ([2; 1; 7] ++ [2; 1; 0] ++ [2; 1; 0]
                   ++ [48; 10; 48; 8; 2; 1; 1; 4; 3; 97; 98; 99])
           :: [2; 1; 7] ++ [2; 1; 0] ++ [2; 1; 0]
              ++ [48; 10; 48; 8; 2; 1; 1; 4; 3; 97; 98; 99])
    = Ok (VGetResponse (Some request_id') value') /\
    obj_eqb request_id' (VInteger 7) = true /\
    obj_eqb value' (VString "abc" 3) = true.
Proof.
  apply (GetResponse_from_bytes_wellformed
           (VInteger 7) (VInteger 0) (VInteger 1) (VString "abc" 3)).
  - cbn. split; [lia | apply small_below_pow256; lia].
  - cbn. split; [lia | apply small_below_pow256; lia].
  - cbn. split; [lia | apply small_below_pow256; lia].
  - reflexivity.
  - reflexivity.
  - reflexivity.
  - reflexivity.
  - reflexivity.
Defined.

(** X17: [GetRequest.__bytes__], for an [Oid] whose bytes are [name] and
    a request id whose bytes are [id], with fewer than 128 octets in all:
    the bytes are the tag 0xa0, the number of octets that follow, [id],
    two integers 0 and the varbind list holding the one varbind of
    [name] and a NULL; and [consume], which knows no tag 0xa0, raises
    [ValueError] on them. *)
Theorem GetRequest_to_bytes_layout (request_id : Z) (oid : Oid.t) (id name : bytes) :
  Integer_to_bytes request_id = Ok id ->
  Oid.to_bytes oid = Ok name ->
  len id + len name + 12 < 128 ->
  let payload := id ++ [2; 1; 0; 2; 1; 0]
                    ++ [48; len name + 4; 48; len name + 2] ++ name ++ [5; 0] in
  GetRequest_to_bytes request_id oid = Ok (160 :: len payload :: payload) /\
  consume (160 :: len payload :: payload)
  = Raise (ValueError "Unknown type header: 0xa0").
Proof.
  intros Hid Hname Hlen payload.
  pose proof (len_nonneg id) as Hid0. pose proof (len_nonneg name) as Hname0.
  assert (is_bytes id) as Hidb.
  { unfold Integer_to_bytes, Integer.to_bytes in Hid.
    destruct (Integer.octets _ request_id); cbn [bind] in Hid; try discriminate.
    apply bytes_of_inv in Hid as [-> H]. exact H. }
  assert (is_bytes name) as Hnameb.
  { unfold Oid.to_bytes in Hname. apply bytes_of_inv in Hname as [-> H]. exact H. }
  assert (len payload = len id + len name + 12) as Hpayload.
  { unfold payload. rewrite !len_app. unfold len. cbn [length]. lia. }
  assert (forall n, 0 <= n < 128 -> encode_length n = Ok n) as Hshort.
  { intros n Hn. apply encode_length_bit7_clear. rewrite testbit_7, Z.mod_small by lia.
    apply Z.leb_gt. lia. }
  split.
  - unfold GetRequest_to_bytes. rewrite Hid, Hname. cbn [bind].
    change (Integer_to_bytes 0) with (@Ok bytes [2; 1; 0]). cbn [bind].
    unfold List_to_bytes at 1. cbn [concat]. rewrite app_nil_r.
    assert (len (name ++ Null.to_bytes) = len name + 2) as Hl1.
    { rewrite len_app. reflexivity. }
    rewrite Hl1, Hshort by lia. cbn [bind].
    rewrite bytes_of_is_bytes by (repeat constructor; lia). cbn [bind].
    unfold List_to_bytes. cbn [concat]. rewrite app_nil_r.
    assert (len ([48; len name + 2] ++ name ++ Null.to_bytes) = len name + 4) as Hl2.
    { rewrite !len_app. unfold len, Null.to_bytes. cbn [length]. lia. }
    rewrite Hl2, Hshort by lia. cbn [bind].
    rewrite bytes_of_is_bytes by (repeat constructor; lia). cbn [bind].
    cbn [concat]. rewrite app_nil_r.
    assert (id ++ [2; 1; 0] ++ [2; 1; 0]
               ++ [48; len name + 4] ++ [48; len name + 2] ++ name ++ Null.to_bytes
            = payload) as ->.
    { reflexivity. }
    rewrite bytes_of_is_bytes by (repeat constructor; lia). reflexivity.
  - rewrite consume_cons. unfold consume_body. cbn [index0 bind].
    rewrite slice_from_1_cons, consume_length_short by (apply land_128_small; lia).
    reflexivity.
Qed.

Lemma GetRequest_to_bytes_layout_witness :
  GetRequest_to_bytes 1000 (Oid.Make [1; 2; 3] [42; 3] 2)
  = Ok [160; 20; 2; 2; 3; 232; 2; 1; 0; 2; 1; 0; 48; 8; 48; 6; 6; 2; 42; 3; 5; 0] /\
  consume [160; 20; 2; 2; 3; 232; 2; 1; 0; 2; 1; 0; 48; 8; 48; 6; 6; 2; 42; 3; 5; 0]
  = Raise (ValueError "Unknown type header: 0xa0").
Proof.
  apply (GetRequest_to_bytes_layout 1000 (Oid.Make [1; 2; 3] [42; 3] 2)
                                    [2; 2; 3; 232] [6; 2; 42; 3]);
    reflexivity.
Defined.

(** ** Length octets *)

(** X18: every length that [encode_length] lets through and that fits
    the one length octet the encoders write is read back by
    [consume_length]: put in front of any bytes, it is returned with
    those bytes. *)
Theorem encode_length_consume_length (n m : Z) (rest : bytes) :
  encode_length n = Ok m -> 0 <= n < 256 ->
  consume_length (m :: rest) = Ok (n, rest).
Proof.
  intros H Hn. destruct (short_length n m H Hn) as [-> Hshort].
  apply consume_length_short. apply land_128_small. exact Hshort.
Qed.

Lemma encode_length_consume_length_witness :
  consume_length [100; 1; 2; 3] = Ok (100, [1; 2; 3]).
Proof. apply (encode_length_consume_length 100 100 [1; 2; 3]); [reflexivity | lia]. Defined.

(** X19: [consume] cuts its chunk after [length + 2] octets, as if the
    length field always took one octet.  For an INTEGER whose length is
    written in the long form with the octets [L], the chunk therefore
    misses the last [len L] content octets: [consume] returns the
    unsigned reading of the content without them (0 when nothing is
    left), while [Integer.from_bytes] on the same TLV reads the whole
    content.  The rest of the buffer is left as it should be. *)
Theorem consume_long_form_integer (L content rest : bytes) :
  1 <= len L <= 126 ->
  int_from_bytes_big L = len content ->
  consume (2 :: Z.lor 128 (len L) :: L ++ content ++ rest)
  = Ok (Some (VInteger (int_from_bytes_big
                          (firstn (length content - length L) content))), rest) /\
  Integer.from_bytes (2 :: Z.lor 128 (len L) :: L ++ content)
  = Ok (int_from_bytes_big content).
Proof.
  intros HL Hlen.
  assert (Z.to_nat (len L) = length L) as HN by (unfold len; lia).
  split.
  - rewrite consume_cons. unfold consume_body. cbn [index0 bind].
    rewrite slice_from_1_cons, consume_length_long by exact HL.
    rewrite HN, firstn_length_app, skipn_length_app, Hlen. cbn [bind].
    change (2 =? 2) with true. cbn iota.
    unfold slice_to, len at 1.
    replace (Z.to_nat (Z.of_nat (length content) + 2)) with (S (S (length content)))
      by lia.
    cbn [firstn]. unfold Integer.from_bytes. cbn [index0 bind].
    change (negb (2 =? Integer.HEADER)) with false. cbn iota.
    rewrite slice_from_1_cons, consume_length_long by exact HL.
    cbn [bind]. rewrite HN, skipn_firstn_comm, skipn_length_app.
    rewrite firstn_app.
    replace (length content - length L - length content)%nat with 0%nat by lia.
    cbn [firstn]. rewrite app_nil_r, slice_from_content. reflexivity.
  - unfold Integer.from_bytes. cbn [index0 bind].
    change (negb (2 =? Integer.HEADER)) with false. cbn iota.
    rewrite slice_from_1_cons, consume_length_long by exact HL.
    cbn [bind]. rewrite HN, skipn_length_app. reflexivity.
Qed.

Lemma consume_long_form_integer_witness :
  consume (2 :: Z.lor 128 (len [2]) :: [2] ++ [1; 44] ++ [7])
  = Ok (Some (VInteger (int_from_bytes_big (firstn (2 - 1) [1; 44]))), [7]) /\
  Integer.from_bytes (2 :: Z.lor 128 (len [2]) :: [2] ++ [1; 44])
  = Ok (int_from_bytes_big [1; 44]).
Proof.
  apply (consume_long_form_integer [2] [1; 44] [7]); [cbn; lia | reflexivity].
Defined.

(** ** Equality of objects *)

Lemma obj_induction_full (P : obj -> Prop) :
  (forall value, P (VInteger value)) ->
  (forall value length, P (VString value length)) ->
  (forall items, Forall P items -> P (VList items)) ->
  (forall o, P (VOid o)) ->
  (forall request_id value,
      (forall x, request_id = Some x -> P x) -> P value ->
      P (VGetResponse request_id value)) ->
  forall o, P o.
Proof.
  intros HI HS HL HO HG.
  fix IH 1. intros [value | value length | items | o | request_id value].
  - apply HI.
  - apply HS.
  - apply HL. induction items as [| item items IHitems]; constructor.
    + apply IH.
    + exact IHitems.
  - apply HO.
  - apply HG; [| apply IH].
    destruct request_id as [x |]; intros y [=]. subst y. apply IH.
Qed.

Lemma list_eqb_sym (l1 l2 : list Z) : list_eqb l1 l2 = list_eqb l2 l1.
Proof.
  destruct (list_eqb l1 l2) eqn:E1, (list_eqb l2 l1) eqn:E2; try reflexivity.
  - apply list_eqb_eq in E1. subst. rewrite list_eqb_refl in E2. discriminate.
  - apply list_eqb_eq in E2. subst. rewrite list_eqb_refl in E1. discriminate.
Qed.

Lemma obj_eqb_refl (a : obj) : obj_eqb a a = true.
Proof.
  induction a as [v | s l | xs IH | o | r v IHr IHv] using obj_induction_full.
  - apply Z.eqb_refl.
  - apply String.eqb_refl.
  - rewrite obj_eqb_list. induction IH as [| x xs Hx _ IHxs]; [reflexivity |].
    cbn [items_eqb]. rewrite Hx, IHxs. reflexivity.
  - apply list_eqb_refl.
  - cbn [obj_eqb]. rewrite IHv, andb_true_r.
    destruct r as [x |]; [apply IHr; reflexivity | reflexivity].
Qed.

Lemma obj_eqb_sym (a : obj) : forall b, obj_eqb a b = obj_eqb b a.
Proof.
  induction a as [v | s l | xs IH | o | r v IHr IHv] using obj_induction_full;
    intros [v' | s' l' | ys | o' | r' w]; try reflexivity.
  - apply Z.eqb_sym.
  - apply String.eqb_sym.
  - rewrite !obj_eqb_list. revert ys.
    induction IH as [| x xs Hx _ IHxs]; intros [| y ys]; try reflexivity.
    cbn [items_eqb]. rewrite Hx, IHxs. reflexivity.
  - apply list_eqb_sym.
  - cbn [obj_eqb]. rewrite IHv. f_equal.
    destruct r as [x |], r' as [x' |]; try reflexivity. apply IHr. reflexivity.
Qed.

Lemma obj_eqb_trans (a : obj) :
  forall b c, obj_eqb a b = true -> obj_eqb b c = true -> obj_eqb a c = true.
Proof.
  induction a as [v | s l | xs IH | o | r v IHr IHv] using obj_induction_full;
    intros b c H1 H2;
    destruct b as [v' | s' l' | ys | o' | r' w]; try discriminate H1;
    destruct c as [v'' | s'' l'' | zs | o'' | r'' u]; try discriminate H2.
  - cbn [obj_eqb] in *. apply Z.eqb_eq in H1, H2. subst. apply Z.eqb_refl.
  - cbn [obj_eqb] in *. apply String.eqb_eq in H1, H2. subst. apply String.eqb_refl.
  - rewrite obj_eqb_list in *. revert ys zs H1 H2.
    induction IH as [| x xs Hx _ IHxs]; intros [| y ys] [| z zs] H1 H2;
      try discriminate; try reflexivity.
    cbn [items_eqb] in *.
    apply andb_prop in H1 as [H1 H1']. apply andb_prop in H2 as [H2 H2'].
    rewrite (Hx y z H1 H2), (IHxs ys zs H1' H2'). reflexivity.
  - cbn [obj_eqb] in *. unfold Oid.eqb in *. apply list_eqb_eq in H1, H2.
    rewrite H1, H2. apply list_eqb_refl.
  - cbn [obj_eqb] in *.
    apply andb_prop in H1 as [H1 H1']. apply andb_prop in H2 as [H2 H2'].
    rewrite (IHv w u H1' H2'), andb_true_r.
    destruct r as [x |], r' as [x' |], r'' as [x'' |]; try discriminate;
      try reflexivity.
    apply (IHr x eq_refl x' x''); assumption.
Qed.

(** X20: [==] on the objects of [consume] is an equivalence: reflexive,
    symmetric and transitive, through nested lists and responses, although
    [String] ignores its [length] attribute and [Oid] compares the packed
    identifiers. *)
Theorem obj_eqb_equivalence :
  (forall a, obj_eqb a a = true) /\
  (forall a b, obj_eqb a b = obj_eqb b a) /\
  (forall a b c, obj_eqb a b = true -> obj_eqb b c = true -> obj_eqb a c = true).
Proof.
  split; [exact obj_eqb_refl |]. split; [exact obj_eqb_sym | exact obj_eqb_trans].
Qed.

(** ** The varbind of [GetResponse.decode] *)

(** X21: [GetResponse.decode] of [puresnmp/types.py], once the request
    id, a zero error status and the error index are read: whatever the
    varbind list holds after its first varbind, the response carries the
    name of the first varbind and its value, or [None] as value when that
    varbind holds a name only; further varbinds and further items of the
    varbind are ignored. *)
Theorem Puresnmp_decode_varbind
        (pop_tlv : bytes -> outcome (option obj * bytes))
        (data d1 d2 d3 d4 : bytes) (request_id error_index : option obj)
        (name : obj) (others more : list obj) :
  pop_tlv data = Ok (request_id, d1) ->
  pop_tlv d1 = Ok (Some (VInteger 0), d2) ->
  pop_tlv d2 = Ok (error_index, d3) ->
  pop_tlv d3 = Ok (Some (VList (VList (name :: others) :: more)), d4) ->
  Puresnmp.decode pop_tlv data
  = Ok (Puresnmp.Make request_id name (hd_error others)).
Proof.
  intros H0 H1 H2 H3. unfold Puresnmp.decode.
  rewrite H0. cbn [bind]. rewrite H1. cbn [bind]. rewrite H2. cbn [bind].
  cbn [value_attr_truth Z.eqb negb bind]. rewrite H3.
  cbn [bind items_attr index nth_error].
  destruct others as [| value others]; [reflexivity |].
  destruct (Z.eqb_spec (len (name :: value :: others)) 1) as [E | _].
  - unfold len in E. cbn [length] in E. lia.
  - reflexivity.
Qed.

Lemma Puresnmp_decode_varbind_witness :
  Puresnmp.decode consume
    [2; 1; 0; 2; 1; 0; 2; 1; 0;
     48; 20; 48; 8; 6; 2; 42; 3; 4; 2; 104; 105; 48; 8; 6; 2; 42; 4; 4; 2; 104; 111]
  = Ok (Puresnmp.Make (Some (VInteger 0)) (VOid (Oid.Make [1; 2; 3] [42; 3] 2))
                      (hd_error [VString "hi" 2])).
Proof.
  apply (Puresnmp_decode_varbind consume _
           [2; 1; 0; 2; 1; 0;
            48; 20; 48; 8; 6; 2; 42; 3; 4; 2; 104; 105; 48; 8; 6; 2; 42; 4; 4; 2; 104; 111]
           [2; 1; 0;
            48; 20; 48; 8; 6; 2; 42; 3; 4; 2; 104; 105; 48; 8; 6; 2; 42; 4; 4; 2; 104; 111]
           [48; 20; 48; 8; 6; 2; 42; 3; 4; 2; 104; 105; 48; 8; 6; 2; 42; 4; 4; 2; 104; 111]
           [] (Some (VInteger 0)) (Some (VInteger 0))
           (VOid (Oid.Make [1; 2; 3] [42; 3] 2)) [VString "hi" 2]
           [VList [VOid (Oid.Make [1; 2; 4] [42; 4] 2); VString "ho" 2]]);
    reflexivity.
Defined.


(** ** An error status behind a long-form length *)

(** C2 on the code: a response whose error status is written with a
    long-form length (02 81 01 status) carries that status, and
    [Integer.from_bytes] reads it from the field; but [consume] cuts the
    chunk of the field after [length + 2] octets, so
    [GetResponse.from_bytes] reads the status as 0 and returns the value
    of the varbind, whatever the status octet: no error is raised for a
    non-zero error status. *)
Theorem GetResponse_long_form_status_accepted (status : Z) :
  Integer.from_bytes [2; 129; 1; status] = Ok status /\
  consume (2 :: 129 :: 1 :: status
             :: [2; 1; 0; 48; 10; 48; 8; 6; 2; 42; 3; 4; 2; 104; 105])
  = Ok (Some (VInteger 0), [2; 1; 0; 48; 10; 48; 8; 6; 2; 42; 3; 4; 2; 104; 105]) /\
  GetResponse_from_bytes (long_form_status_response status)
  = Ok (VGetResponse (Some (VInteger 0)) (VString "hi" 2)) /\
  GetResponse_from_bytes (long_form_status_response 5)
  = Ok (VGetResponse (Some (VInteger 0)) (VString "hi" 2)).
Proof.
  split; [| split; [| split]].
  - unfold Integer.from_bytes. cbn [index0 bind].
    change (negb (2 =? Integer.HEADER)) with false. cbn iota.
    rewrite slice_from_1_cons.
    change 129 with (Z.lor 128 1). rewrite consume_length_long by lia.
    cbn [bind Z.to_nat Pos.to_nat Pos.iter_op skipn].
    apply f_equal. apply int_from_bytes_big_single.
  - reflexivity.
  - reflexivity.
  - reflexivity.
Qed.
